(** * PolymarketBTC15mAssistant: the web dashboard's telemetry core

  A shallow embedding of the three server-side pieces behind the
  dashboard and the properties stated about them:

  - [DataStore] (src/web/dataStore.js): the ring buffer of snapshots;
  - the REST handlers of [createApiRouter] (src/web/routes/api.js):
    [GET /history] and [GET /performance];
  - the WebSocket channel of [createWebSocketServer]
    (src/web/routes/ws.js): the connection handler and [broadcast].

  The second part ("Further properties") covers more of the same files
  ([GET /current], [formatUptime], the regime tally, inbound messages,
  the heartbeat), the CSV reader behind [GET /history/csv]
  (src/web/csvReader.js) and the signal history kept by the dashboard.

  JavaScript values are modelled as they are at run time: a number is an
  IEEE-754 binary64 ([float], Rocq's primitive floats), an object is a
  finite map from property names to values, an array is a list.  Numbers
  that the code only ever uses as array lengths, indices and counters
  (capacity, [limit], [offset], the signal counters) are integers [Z] or
  [nat]; integer arithmetic on doubles is exact below 2^53, far above any
  array length. *)

From Stdlib Require Import ZArith List Ascii String Floats Lia Bool.
From Stdlib Require Uint63 DecimalString.
From stdpp Require Import base option list gmap strings.

Set Warnings "-inexact-float,-register-all".
Set Default Proof Using "Type".

Local Open Scope Z_scope.

(** ** JavaScript values *)

Module Js.

(** The values that reach the store.  Functions, symbols and arrays as
    field values play no role in the code under study. *)
Inductive JsVal : Type :=
| JUndefined
| JNull
| JBool (b : bool)
| JNum (x : float)
| JStr (s : string)
| JObj (props : gmap string JsVal).

(** A plain object: its own enumerable properties. *)
Abbreviation JsObject := (gmap string JsVal).

(** [o.k] on an object: a missing property reads as [undefined]. *)
Definition get (k : string) (o : JsObject) : JsVal :=
  default JUndefined (o !! k).

(** [v.k] on an arbitrary value.  Reading a property of [undefined] or
    [null] throws a TypeError ([None]); a primitive has none of the
    property names the handlers ask for. *)
Definition member (v : JsVal) (k : string) : option JsVal :=
  match v with
  | JUndefined | JNull => None
  | JObj o => Some (get k o)
  | JBool _ | JNum _ | JStr _ => Some JUndefined
  end.

(** [v?.k]: optional chaining short-circuits to [undefined]. *)
Definition member_opt (v : JsVal) (k : string) : JsVal :=
  default JUndefined (member v k).

(** ToBoolean. *)
Definition truthy (v : JsVal) : bool :=
  match v with
  | JUndefined | JNull => false
  | JBool b => b
  | JNum x => negb (PrimFloat.is_zero x || PrimFloat.is_nan x)
  | JStr s => negb (String.eqb s "")
  | JObj _ => true
  end.

(** [a || b]. *)
Definition or_else (a b : JsVal) : JsVal := if truthy a then a else b.

(** [v === "lit"] against a string literal. *)
Definition is_string (lit : string) (v : JsVal) : bool :=
  match v with
  | JStr s => String.eqb s lit
  | _ => false
  end.

(** [typeof v === "number" && isFinite(v)]: the finite number, if any. *)
Definition finite_number (v : JsVal) : option float :=
  match v with
  | JNum x => if PrimFloat.is_finite x then Some x else None
  | _ => None
  end.

(** [Math.max(a, b)]: NaN is contagious and +0 is above -0. *)
Definition Math_max (a b : float) : float :=
  if PrimFloat.is_nan a || PrimFloat.is_nan b then nan
  else if PrimFloat.ltb a b then b
  else if PrimFloat.ltb b a then a
  else if PrimFloat.is_zero a && PrimFloat.get_sign a then b
  else a.

(** The Number that holds a positive integer: the nearest double, ties to
    even, and Infinity from 2^1024 - 2^970 on.  Below 2^63 the conversion
    is the machine's own.  A larger integer is cut to its 63 leading bits,
    the lowest of which is set when any bit below it is, so that the cut
    rounds to 53 bits as the whole integer does; the result is scaled
    back by the power of two that was cut off. *)
Definition Number_of_positive (p : positive) : float :=
  let z := Zpos p in
  if z <? 2 ^ 63 then PrimFloat.of_uint63 (Uint63.of_Z z)
  else
    let k := Z.log2 z - 62 in
    let sticky := if z mod 2 ^ k =? 0 then 0 else 1 in
    Z.ldexp (PrimFloat.of_uint63 (Uint63.of_Z (Z.lor (Z.shiftr z k) sticky))) k.

(** The Number that holds an integer: exact below 2^53, rounded to
    nearest-even above, as the runtime does. *)
Definition Number_of_Z (z : Z) : float :=
  match z with
  | Z0 => 0%float
  | Zpos p => Number_of_positive p
  | Zneg p => PrimFloat.opp (Number_of_positive p)
  end.

Definition Number_of_nat (n : nat) : float := Number_of_Z (Z.of_nat n).

(** [a === b] on numbers. *)
Definition same_number (a b : float) : bool := PrimFloat.eqb a b.

(** A number that is neither a zero nor NaN, seen through the IEEE-754
    specification of the primitive floats. *)
Definition proper (x : SpecFloat.spec_float) : bool :=
  match x with
  | SpecFloat.S754_finite _ _ _ | SpecFloat.S754_infinity _ => true
  | _ => false
  end.

(** [Array.prototype.slice]: a relative index counts from the end when
    negative and is clamped to [0, len]. *)
Definition relative_index (len rel : Z) : Z :=
  if rel <? 0 then Z.max (len + rel) 0 else Z.min rel len.

Definition slice {A} (l : list A) (start : Z) (stop : option Z) : list A :=
  let len := Z.of_nat (length l) in
  let k := relative_index len start in
  let final := match stop with
               | None => len
               | Some e => relative_index len e
               end in
  take (Z.to_nat (final - k)) (drop (Z.to_nat k) l).

End Js.

Import Js.

(** ** The snapshot store (src/web/dataStore.js) *)

Module DataStore.

Abbreviation Snapshot := (gmap string JsVal).

Record t : Type := mk {
  maxSize : Z;
  buffer : list Snapshot;
  startTime : float
}.

(** [constructor(maxSize = 3600)], run at time [now]. *)
Definition new (size : option Z) (now : float) : t :=
  {| maxSize := default 3600 size; buffer := []; startTime := now |}.

(** [{...snapshot, timestamp: Date.now(), _addedAt: new Date().toISOString()}] *)
Definition timestamped (now : float) (iso : string) (snapshot : Snapshot) : Snapshot :=
  <["_addedAt" := JStr iso]> (<["timestamp" := JNum now]> snapshot).

(** [add(snapshot)]: push, then shift once if the buffer got longer than
    [maxSize].  [now] and [iso] are what the two clock reads return. *)
Definition add (now : float) (iso : string) (snapshot : Snapshot) (ds : t) : t :=
  let pushed := buffer ds ++ [timestamped now iso snapshot] in
  if maxSize ds <? Z.of_nat (length pushed)
  then {| maxSize := maxSize ds; buffer := tail pushed; startTime := startTime ds |}
  else {| maxSize := maxSize ds; buffer := pushed; startTime := startTime ds |}.

(** [getRecent(count = 100)] *)
Definition getRecent (count : option Z) (ds : t) : list Snapshot :=
  let count := default 100 count in
  if Z.of_nat (length (buffer ds)) <=? count
  then buffer ds
  else slice (buffer ds) (- count) None.

(** [getAll()]: a copy of the buffer. *)
Definition getAll (ds : t) : list Snapshot := buffer ds.

(** [getLast()]: [None] is JavaScript's [null]. *)
Definition getLast (ds : t) : option Snapshot := last (buffer ds).

Record Stats : Type := mkStats {
  count : nat;
  stats_maxSize : Z;
  utilization : float;
  uptimeMs : float;
  oldestTimestamp : JsVal;
  newestTimestamp : JsVal
}.

(** [getStats()], run at time [now]. *)
Definition getStats (now : float) (ds : t) : Stats :=
  {| count := length (buffer ds);
     stats_maxSize := maxSize ds;
     utilization :=
       (Number_of_nat (length (buffer ds)) / Number_of_Z (maxSize ds) * 100)%float;
     uptimeMs := (now - startTime ds)%float;
     oldestTimestamp :=
       match head (buffer ds) with
       | Some s => get "timestamp" s
       | None => JNull
       end;
     newestTimestamp :=
       match last (buffer ds) with
       | Some s => get "timestamp" s
       | None => JNull
       end |}.

(** [clear()] *)
Definition clear (ds : t) : t :=
  {| maxSize := maxSize ds; buffer := []; startTime := startTime ds |}.

(** One call of [add] by the producer: the two clock reads and the raw
    snapshot. *)
Record Append : Type := mkAppend {
  at_ms : float;
  at_iso : string;
  raw : Snapshot
}.

Definition stamp (c : Append) : Snapshot :=
  timestamped (at_ms c) (at_iso c) (raw c).

Definition add_all (calls : list Append) (ds : t) : t :=
  fold_left (fun ds c => add (at_ms c) (at_iso c) (raw c) ds) calls ds.

(** What [clear()] followed by [getStats()] at time [now] is expected to
    give: only the buffer is reset, and the statistics are those of an
    empty buffer of the same capacity and the same start time. *)
Definition cleared_stats (now : float) (ds : t) : Prop :=
  let st := getStats now (clear ds) in
  buffer (clear ds) = []
  /\ maxSize (clear ds) = maxSize ds
  /\ startTime (clear ds) = startTime ds
  /\ count st = 0%nat
  /\ same_number (utilization st) 0 = true
  /\ stats_maxSize st = maxSize ds
  /\ uptimeMs st = (now - startTime ds)%float
  /\ oldestTimestamp st = JNull
  /\ newestTimestamp st = JNull.

End DataStore.

(** ** The REST handlers (src/web/routes/api.js) *)

Module Api.

Import DataStore.

(** *** Query parameters *)

(** The white space [parseInt] skips (the ASCII part of StrWhiteSpaceChar:
    tab, line feed, vertical tab, form feed, carriage return, space). *)
Definition is_space (c : ascii) : bool :=
  let n := nat_of_ascii c in
  ((9 <=? n) && (n <=? 13) || (n =? 32))%nat.

Fixpoint skip_spaces (s : string) : string :=
  match s with
  | String c rest => if is_space c then skip_spaces rest else s
  | EmptyString => s
  end.

(** The value of [c] as a digit in [radix], if it is one. *)
Definition digit (radix : Z) (c : ascii) : option Z :=
  let n := Z.of_nat (nat_of_ascii c) in
  let d := if (48 <=? n) && (n <=? 57) then Some (n - 48)
           else if (97 <=? n) && (n <=? 122) then Some (n - 87)
           else if (65 <=? n) && (n <=? 90) then Some (n - 55)
           else None in
  match d with
  | Some v => if v <? radix then Some v else None
  | None => None
  end.

(** The longest prefix of digits, read in [radix]; [acc] is [None] until a
    digit has been seen. *)
Fixpoint digits (radix : Z) (s : string) (acc : option Z) : option Z :=
  match s with
  | String c rest =>
      match digit radix c with
      | Some d => digits radix rest (Some (radix * default 0 acc + d))
      | None => acc
      end
  | EmptyString => acc
  end.

(** [parseInt(s)] with no radix argument: [None] is NaN.  The integer is
    exact here; the runtime rounds it to a double above 2^53. *)
Definition parseInt (s : string) : option Z :=
  let s := skip_spaces s in
  let '(negative, s) :=
    match s with
    | String "-"%char rest => (true, rest)
    | String "+"%char rest => (false, rest)
    | _ => (false, s)
    end in
  let '(radix, s) :=
    match s with
    | String "0"%char (String "x"%char rest)
    | String "0"%char (String "X"%char rest) => (16, rest)
    | _ => (10, s)
    end in
  match digits radix s None with
  | Some n => Some (if negative then - n else n)
  | None => None
  end.

(** [parseInt(req.query.name)]: an absent parameter is [undefined], which
    [parseInt] reads as the text "undefined", hence NaN. *)
Definition parse_param (p : option string) : option Z :=
  match p with
  | Some s => parseInt s
  | None => None
  end.

(** [n || d] on a number: NaN and 0 are falsy. *)
Definition or_default (n : option Z) (d : Z) : Z :=
  match n with
  | Some v => if v =? 0 then d else v
  | None => d
  end.

(** *** GET /history *)

Record Query : Type := mkQuery {
  q_limit : option string;
  q_offset : option string
}.

Record History : Type := mkHistory {
  rows : list Snapshot;
  total : Z;
  limit : Z;
  offset : Z;
  hasMore : bool
}.

Definition history (q : Query) (ds : DataStore.t) : History :=
  let limit := Z.min (or_default (parse_param (q_limit q)) 100) 1000 in
  let offset := or_default (parse_param (q_offset q)) 0 in
  let allData := getAll ds in
  let total := Z.of_nat (length allData) in
  let start := Z.max 0 (total - offset - limit) in
  let stop := total - offset in
  let rows := slice allData start (Some stop) in
  {| rows := rows;
     total := total;
     limit := limit;
     offset := offset;
     hasMore := offset + limit <? total |}.

(** *** GET /performance *)

(** The running variables of one edge channel: [edgeUpSum], [edgeUpCount],
    [maxEdgeUp], and the same three for [edgeDown]. *)
Record Channel : Type := mkChannel {
  sum : float;
  cnt : nat;
  top : float
}.

(** The variables the loop updates. *)
Record Acc : Type := mkAcc {
  acc_buyUp : nat;
  acc_buyDown : nat;
  acc_noTrade : nat;
  acc_edgeUp : Channel;
  acc_edgeDown : Channel;
  acc_positive : nat;
  acc_regimes : gmap string nat
}.

(** Their values before the loop. *)
Definition initial : Acc :=
  {| acc_buyUp := 0; acc_buyDown := 0; acc_noTrade := 0;
     acc_edgeUp := {| sum := 0; cnt := 0; top := neg_infinity |};
     acc_edgeDown := {| sum := 0; cnt := 0; top := neg_infinity |};
     acc_positive := 0;
     acc_regimes := ∅ |}.

(** The body of one of the two [if (typeof v === "number" && isFinite(v))]
    blocks: it updates its channel and the shared [positiveEdgeCount]. *)
Definition accumulate (v : JsVal) (ch : Channel) (positive : nat) : Channel * nat :=
  match finite_number v with
  | Some x =>
      ({| sum := sum ch + x; cnt := S (cnt ch); top := Math_max (top ch) x |},
       if (0 <? x)%float then S positive else positive)
  | None => (ch, positive)
  end.

(** "Count signals". *)
Definition count_signal (snapshot : Snapshot) (a : Acc) : Acc :=
  let signal := get "signal" snapshot in
  if is_string "BUY UP" signal then
    mkAcc (S (acc_buyUp a)) (acc_buyDown a) (acc_noTrade a)
          (acc_edgeUp a) (acc_edgeDown a) (acc_positive a) (acc_regimes a)
  else if is_string "BUY DOWN" signal then
    mkAcc (acc_buyUp a) (S (acc_buyDown a)) (acc_noTrade a)
          (acc_edgeUp a) (acc_edgeDown a) (acc_positive a) (acc_regimes a)
  else
    mkAcc (acc_buyUp a) (acc_buyDown a) (S (acc_noTrade a))
          (acc_edgeUp a) (acc_edgeDown a) (acc_positive a) (acc_regimes a).

(** "Aggregate edges".  The property reads can throw, so the result is an
    [option]. *)
Definition aggregate_edges (snapshot : Snapshot) (a : Acc) : option Acc :=
  let edge := get "edge" snapshot in
  if truthy edge then
    up ← member edge "edgeUp";
    let '(chUp, positive) := accumulate up (acc_edgeUp a) (acc_positive a) in
    down ← member edge "edgeDown";
    let '(chDown, positive) := accumulate down (acc_edgeDown a) positive in
    Some (mkAcc (acc_buyUp a) (acc_buyDown a) (acc_noTrade a)
                chUp chDown positive (acc_regimes a))
  else Some a.

Section Runtime.

(** Number::toString, which the code reaches only when a regime label is
    a number used as a property name. *)
Variable NumberToString : float -> string.

(** ToPropertyKey on the values of the model. *)
Definition property_key (v : JsVal) : string :=
  match v with
  | JUndefined => "undefined"
  | JNull => "null"
  | JBool true => "true"
  | JBool false => "false"
  | JNum x => NumberToString x
  | JStr s => s
  | JObj _ => "[object Object]"
  end.

(** "Count regimes".  The tally is a plain object used as a map; labels
    that name a member of Object.prototype are outside the model. *)
Definition count_regime (snapshot : Snapshot) (a : Acc) : Acc :=
  let regime :=
    or_else (or_else (get "regime" snapshot)
                     (member_opt (get "regimeInfo" snapshot) "regime"))
            (JStr "UNKNOWN") in
  let key := property_key regime in
  mkAcc (acc_buyUp a) (acc_buyDown a) (acc_noTrade a)
        (acc_edgeUp a) (acc_edgeDown a) (acc_positive a)
        (<[key := (default 0 (acc_regimes a !! key) + 1)%nat]> (acc_regimes a)).

(** One iteration of [for (const snapshot of data)]. *)
Definition body (a : Acc) (snapshot : Snapshot) : option Acc :=
  a ← aggregate_edges snapshot (count_signal snapshot a);
  Some (count_regime snapshot a).

(** The whole loop; an exception in an iteration ends it. *)
Fixpoint for_of (data : list Snapshot) (a : Acc) : option Acc :=
  match data with
  | [] => Some a
  | snapshot :: rest => a ← body a snapshot; for_of rest a
  end.

(** The body of the JSON response; [None] in a field is [null]. *)
Record Report : Type := mkReport {
  totalSignals : nat;
  buyUpCount : nat;
  buyDownCount : nat;
  noTradeCount : nat;
  averageEdgeUp : option float;
  averageEdgeDown : option float;
  maxEdgeUp : option float;
  maxEdgeDown : option float;
  positiveEdgeCount : nat;
  regimeDistribution : gmap string nat
}.

(** [count > 0 ? sum / count : null] *)
Definition average (ch : Channel) : option float :=
  if (0 <? cnt ch)%nat then Some (sum ch / Number_of_nat (cnt ch))%float else None.

(** [max > -Infinity ? max : null] *)
Definition maximum (ch : Channel) : option float :=
  if (neg_infinity <? top ch)%float then Some (top ch) else None.

(** The handler: [None] is an uncaught exception, [Some r] the response
    [res.json(r)]. *)
Definition performance (ds : DataStore.t) : option Report :=
  let data := getAll ds in
  if (length data =? 0)%nat then
    Some {| totalSignals := 0; buyUpCount := 0; buyDownCount := 0;
            noTradeCount := 0;
            averageEdgeUp := None; averageEdgeDown := None;
            maxEdgeUp := None; maxEdgeDown := None;
            positiveEdgeCount := 0; regimeDistribution := ∅ |}
  else
    a ← for_of data initial;
    Some {| totalSignals := length data;
            buyUpCount := acc_buyUp a;
            buyDownCount := acc_buyDown a;
            noTradeCount := acc_noTrade a;
            averageEdgeUp := average (acc_edgeUp a);
            averageEdgeDown := average (acc_edgeDown a);
            maxEdgeUp := maximum (acc_edgeUp a);
            maxEdgeDown := maximum (acc_edgeDown a);
            positiveEdgeCount := acc_positive a;
            regimeDistribution := acc_regimes a |}.

End Runtime.

(** *** Vocabulary for the statements about the report *)





Definition count_if {A} (p : A -> bool) (l : list A) : nat :=
  length (List.filter p l).



(** One more value in a channel. *)
Definition extend (ch : Channel) (x : float) : Channel :=
  {| sum := sum ch + x; cnt := S (cnt ch); top := Math_max (top ch) x |}.

Definition extend_opt (ch : Channel) (x : option float) : Channel :=
  from_option (extend ch) ch x.

Definition positive_opt (x : option float) : nat :=
  match x with
  | Some x => if (0 <? x)%float then 1 else 0
  | None => 0
  end.



(** The two snapshots of the worked example. *)
Definition example_buy_up : Snapshot :=
  {[ "signal" := JStr "BUY UP";
     "edge" := JObj {[ "edgeUp" := JNum 0.05; "edgeDown" := JNum (-0.02) ]} ]}.

Definition example_no_trade : Snapshot :=
  {[ "signal" := JStr "NO TRADE";
     "edge" := JObj {[ "edgeUp" := JNum 0.10 ]} ]}.

(** The store of the worked example: an empty store of capacity [cap] to
    which the two snapshots are added, at times [t1] and [t2]. *)
Definition example_store (cap : Z) (t0 t1 : float) (i1 : string)
    (t2 : float) (i2 : string) : DataStore.t :=
  add t2 i2 example_no_trade (add t1 i1 example_buy_up (DataStore.mk cap [] t0)).

(** The report on an empty history. *)
Definition empty_report : Report :=
  {| totalSignals := 0; buyUpCount := 0; buyDownCount := 0; noTradeCount := 0;
     averageEdgeUp := None; averageEdgeDown := None;
     maxEdgeUp := None; maxEdgeDown := None;
     positiveEdgeCount := 0; regimeDistribution := ∅ |}.



(** The outcome of the worked example, with [avg] for [averageEdgeUp]. *)
Definition worked_example (toS : float -> string) (ds : DataStore.t)
    (avg : float) : Prop :=
  exists r, performance toS ds = Some r
    /\ buyUpCount r = 1%nat /\ noTradeCount r = 1%nat
    /\ averageEdgeUp r = Some avg /\ positiveEdgeCount r = 2%nat.

End Api.

(** ** The WebSocket channel (src/web/routes/ws.js)

    The handlers run one at a time, each to completion, so the channel is
    a state machine over the events of [Event] below.  The heartbeat timer
    is left out: it sends protocol-level ping frames, never calls [send],
    never touches [clients], and the sockets it terminates show up here
    as [Close] events. *)

Module Ws.

Import DataStore.

(** The objects handed to [JSON.stringify] before [send]. *)
Inductive Message : Type :=
| Msg_snapshot (data : Snapshot)
| Msg_update (data : Snapshot) (timestamp : float)
| Msg_pong (timestamp : float).

Definition is_snapshot (m : Message) : bool :=
  match m with
  | Msg_snapshot _ => true
  | _ => false
  end.

(** A [ws] connection object.  [throws n] tells whether its [n]-th call of
    [send] (counting from 0) throws; [sent] lists every call of [send] on
    it, oldest first, with [true] for a call that returned normally. *)
Record Socket : Type := mkSocket {
  readyState : Z;
  throws : nat -> bool;
  sent : list (Message * bool)
}.

(** The state [createWebSocketServer] closes over: the [clients] Set, the
    connection objects by identity, and the console. *)
Record Server : Type := mkServer {
  clients : gset nat;
  sockets : gmap nat Socket;
  console : list string
}.

Definition log (line : string) (srv : Server) : Server :=
  {| clients := clients srv; sockets := sockets srv;
     console := console srv ++ [line] |}.

(** [ws.send(JSON.stringify(msg))] on connection [w]; the flag tells
    whether the call returned normally. *)
Definition send (w : nat) (msg : Message) (srv : Server) : Server * bool :=
  match sockets srv !! w with
  | Some sock =>
      let ok := negb (throws sock (length (sent sock))) in
      ({| clients := clients srv;
          sockets := <[w := {| readyState := readyState sock;
                               throws := throws sock;
                               sent := sent sock ++ [(msg, ok)] |}]> (sockets srv);
          console := console srv |}, ok)
  | None => (srv, true)
  end.

(** A [try { ws.send(...) } catch (error) { console.error(line) }]. *)
Definition try_send (w : nat) (msg : Message) (line : string) (srv : Server) : Server :=
  let '(srv, ok) := send w msg srv in
  if ok then srv else log line srv.

(** The socket the library creates for a new connection: OPEN, nothing
    sent yet. *)
Definition accept (w : nat) (behaviour : nat -> bool) (srv : Server) : Server :=
  {| clients := clients srv;
     sockets := <[w := {| readyState := 1; throws := behaviour; sent := [] |}]> (sockets srv);
     console := console srv |}.

(** [wss.on("connection", ...)] up to the heartbeat set-up. *)
Definition on_connection (ds : DataStore.t) (w : nat) (srv : Server) : Server :=
  let srv := log "[WebSocket] Client connected" srv in
  let srv := {| clients := {[w]} ∪ clients srv; sockets := sockets srv;
                console := console srv |} in
  match getLast ds with
  | Some current =>
      try_send w (Msg_snapshot current) "[WebSocket] Error sending initial data" srv
  | None => srv
  end.

(** [ws.on("message", ...)]: [parsed] is the result of [JSON.parse], [None]
    when it throws. *)
Definition on_message (w : nat) (parsed : option JsVal) (now : float) (srv : Server) : Server :=
  match parsed ≫= (fun data => member data "type") with
  | Some type =>
      if is_string "ping" type
      then try_send w (Msg_pong now) "[WebSocket] Error handling message" srv
      else srv
  | None => log "[WebSocket] Error handling message" srv
  end.

(** [ws.on("close", ...)]; the socket is CLOSED by then. *)
Definition on_close (w : nat) (srv : Server) : Server :=
  {| clients := clients srv ∖ {[w]};
     sockets := alter (fun sock => {| readyState := 3; throws := throws sock;
                                      sent := sent sock |}) w (sockets srv);
     console := console srv ++ ["[WebSocket] Client disconnected"] |}.

(** [ws.on("error", ...)] *)
Definition on_error (w : nat) (srv : Server) : Server :=
  {| clients := clients srv ∖ {[w]};
     sockets := sockets srv;
     console := console srv ++ ["[WebSocket] Client error"] |}.

(** The loop variables of [broadcast]. *)
Record Fanout : Type := mkFanout {
  server : Server;
  successCount : nat;
  failCount : nat
}.

(** The callback of [clients.forEach] in [broadcast]. *)
Definition deliver (message : Message) (f : Fanout) (client : nat) : Fanout :=
  match sockets (server f) !! client with
  | Some sock =>
      if readyState sock =? 1 then
        let '(srv, ok) := send client message (server f) in
        if ok
        then {| server := srv; successCount := S (successCount f);
                failCount := failCount f |}
        else {| server := log "[WebSocket] Error broadcasting to client" srv;
                successCount := successCount f;
                failCount := S (failCount f) |}
      else f
  | None => f
  end.

(** [broadcast(data)], run at time [now].  The Set is walked in the order
    of [elements]; a send touches only its own socket, so the order shows
    in nothing but the order of console lines. *)
Definition broadcast (data : Snapshot) (now : float) (srv : Server) : Server :=
  let message := Msg_update data now in
  let f := foldl (deliver message)
                 {| server := srv; successCount := 0; failCount := 0 |}
                 (elements (clients srv)) in
  if (0 <? failCount f)%nat
  then log "[WebSocket] Broadcast: some failed" (server f)
  else server f.

(** What can happen to the running system. *)
Inductive Event : Type :=
| Connection (w : nat) (behaviour : nat -> bool)
| Inbound (w : nat) (parsed : option JsVal) (now : float)
| Close (w : nat)
| Error (w : nat)
| Add (call : DataStore.Append)
| Broadcast (data : Snapshot) (now : float).

Definition System : Type := DataStore.t * Server.

Definition step (sys : System) (ev : Event) : System :=
  let '(ds, srv) := sys in
  match ev with
  | Connection w behaviour => (ds, on_connection ds w (accept w behaviour srv))
  | Inbound w parsed now => (ds, on_message w parsed now srv)
  | Close w => (ds, on_close w srv)
  | Error w => (ds, on_error w srv)
  | Add c => (add (at_ms c) (at_iso c) (raw c) ds, srv)
  | Broadcast data now => (ds, broadcast data now srv)
  end.

Definition run (evs : list Event) (sys : System) : System :=
  foldl step sys evs.

Definition is_connection (w : nat) (ev : Event) : bool :=
  match ev with
  | Connection w' _ => Nat.eqb w w'
  | _ => false
  end.

(** Every call of [send] made so far on connection [w]. *)
Definition sent_to (w : nat) (srv : Server) : list (Message * bool) :=
  match sockets srv !! w with
  | Some sock => sent sock
  | None => []
  end.

(** The messages that reached the transport. *)
Definition received (w : nat) (srv : Server) : list Message :=
  (filter (fun c => snd c = true) (sent_to w srv)).*1.

(** *** Vocabulary for the statements about the channel *)

(** What one round of [broadcast] does to a registered connection: an OPEN
    socket gets one more call of [send], which succeeds unless that very
    socket throws. *)
Definition delivered (message : Message) (sock : Socket) : Socket :=
  if readyState sock =? 1
  then {| readyState := readyState sock; throws := throws sock;
          sent := sent sock ++ [(message, negb (throws sock (length (sent sock))))] |}
  else sock.

(** Connection [w] is OPEN and its next call of [send] throws (or does
    not, for [outcome = false]). *)
Definition next_send_throws (outcome : bool) (w : nat) (srv : Server) : Prop :=
  exists sock, sockets srv !! w = Some sock
    /\ readyState sock = 1
    /\ throws sock (length (sent sock)) = outcome.

(** "A consumer whose send throws during [broadcast] is dropped from the
    registry, and every other open consumer still receives the update." *)
Definition thrower_dropped (data : Snapshot) (now : float) (srv : Server) : Prop :=
  forall w, w ∈ clients srv -> next_send_throws true w srv ->
    (w ∉ clients (broadcast data now srv))
    /\ (forall w', w' ∈ clients srv -> next_send_throws false w' srv ->
          received w' (broadcast data now srv)
          = received w' srv ++ [Msg_update data now]).

(** Calls of [send] none of which carries a "snapshot" message. *)
Definition no_snapshot (calls : list (Message * bool)) : Prop :=
  Forall (fun c => is_snapshot c.1 = false) calls.

(** Events none of which is a new connection under the identity [w]. *)
Definition not_reconnected (w : nat) (evs : list Event) : Prop :=
  Forall (fun ev => is_connection w ev = false) evs.

(** A server nobody has connected to yet. *)
Definition idle : Server := {| clients := ∅; sockets := ∅; console := [] |}.

(** A store holding one snapshot, and a few things that happen after a
    consumer has connected: a tick (append, then broadcast), a ping from
    that consumer, another consumer connecting, a second broadcast. *)
Definition one_snapshot : DataStore.t := add 1 "t1" {[ "price" := JNum 67000 ]} (new None 0).

Definition afterwards : list Event :=
  [ Add (mkAppend 2 "t2" {[ "price" := JNum 67001 ]});
    Broadcast {[ "price" := JNum 67001 ]} 2;
    Inbound 7 (Some (JObj {[ "type" := JStr "ping" ]})) 3;
    Connection 8 (fun _ => false);
    Broadcast {[ "price" := JNum 67002 ]} 4 ].

(** Three connected consumers; the second one throws on every [send]. *)
Definition three_consumers : Server :=
  accept 3 (fun _ => false)
    (accept 2 (fun _ => true)
       (accept 1 (fun _ => false)
          {| clients := {[1%nat; 2%nat; 3%nat]}; sockets := ∅; console := [] |})).

End Ws.

(** ** Text: the string operations the code relies on *)

Module Text.

(** [String(n)] and [`${n}`] for an integer: the decimal numeral (the
    runtime switches to exponent notation from 10^21 on). *)
Definition of_integer (n : Z) : string :=
  DecimalString.NilZero.string_of_int (Z.to_int n).

(** [s.split(sep)] for a one-character separator: the pieces between the
    separators, so never an empty list. *)
Fixpoint split (sep : ascii) (s : string) : list string :=
  match s with
  | EmptyString => [EmptyString]
  | String c rest =>
      if Ascii.eqb c sep then EmptyString :: split sep rest
      else match split sep rest with
           | piece :: pieces => String c piece :: pieces
           | [] => [String c EmptyString]
           end
  end.

(** A string of the program is held as its UTF-8 bytes, which is what the
    CSV reader decodes its file from; the comma and the ASCII white space
    are single bytes that occur in no longer sequence. *)
Definition utf8 (bytes : list nat) : string :=
  string_of_list_ascii (ascii_of_nat <$> bytes).

(** The characters [trim] strips, WhiteSpace and LineTerminator of the
    language: TAB, LF, VT, FF, CR, SP, U+00A0, U+1680, U+2000 to U+200A,
    U+2028, U+2029, U+202F, U+205F, U+3000 and U+FEFF. *)
Definition white_space : list string :=
  utf8 <$> [ [9]; [10]; [11]; [12]; [13]; [32];
             [194; 160];
             [225; 154; 128];
             [226; 128; 128]; [226; 128; 129]; [226; 128; 130]; [226; 128; 131];
             [226; 128; 132]; [226; 128; 133]; [226; 128; 134]; [226; 128; 135];
             [226; 128; 136]; [226; 128; 137]; [226; 128; 138];
             [226; 128; 168]; [226; 128; 169];
             [226; 128; 175];
             [226; 129; 159];
             [227; 128; 128];
             [239; 187; 191] ]%nat.

(** What follows the prefix [pre] in [s], when [s] starts with it. *)
Fixpoint after (pre s : string) : option string :=
  match pre, s with
  | EmptyString, _ => Some s
  | String a pre, String b s => if Ascii.eqb a b then after pre s else None
  | String _ _, EmptyString => None
  end.

(** What follows one white-space character at the front of [s]. *)
Definition after_space (s : string) : option string :=
  head (omap (fun w => after w s) white_space).

(** White space dropped from the left; every step takes at least one
    byte, so the length of the string is fuel enough. *)
Fixpoint trimStart_fuel (fuel : nat) (s : string) : string :=
  match fuel with
  | O => s
  | S fuel =>
      match after_space s with
      | Some rest => trimStart_fuel fuel rest
      | None => s
      end
  end.

Definition trimStart (s : string) : string := trimStart_fuel (String.length s) s.

(** A string of nothing but white space. *)
Definition blank (s : string) : bool := String.eqb (trimStart s) "".

(** White space dropped from the right: the string is cut where a blank
    tail begins. *)
Fixpoint trimEnd (s : string) : string :=
  match s with
  | EmptyString => EmptyString
  | String c rest => if blank s then EmptyString else String c (trimEnd rest)
  end.

(** [s.trim()] *)
Definition trim (s : string) : string := trimEnd (trimStart s).

End Text.

(** ** More of the REST router (src/web/routes/api.js) *)

Module Routes.

Import DataStore Api.

(** What a handler answers: [res.json(body)], or [res.status(404).json
    ({error})]. *)
Inductive Reply (A : Type) : Type :=
| Ok (body : A)
| NotFound (error : string).

Arguments Ok {A} body.
Arguments NotFound {A} error.

(** GET /current *)
Definition current (ds : DataStore.t) : Reply Snapshot :=
  match getLast ds with
  | Some snapshot => Ok snapshot
  | None => NotFound "No data available yet"
  end.

(** [formatUptime(ms)] on a whole number of milliseconds, which is what
    the difference of two [Date.now()] readings is.  [Math.floor] of a
    quotient is [/]; [%] keeps the sign of the dividend, as [Z.rem]. *)
Definition formatUptime (ms : Z) : string :=
  let seconds := ms / 1000 in
  let minutes := seconds / 60 in
  let hours := minutes / 60 in
  let days := hours / 24 in
  if 0 <? days then
    Text.of_integer days ++ "d " ++ Text.of_integer (Z.rem hours 24) ++ "h "
      ++ Text.of_integer (Z.rem minutes 60) ++ "m"
  else if 0 <? hours then
    Text.of_integer hours ++ "h " ++ Text.of_integer (Z.rem minutes 60) ++ "m"
  else if 0 <? minutes then
    Text.of_integer minutes ++ "m " ++ Text.of_integer (Z.rem seconds 60) ++ "s"
  else
    Text.of_integer seconds ++ "s".

(** The text for an uptime of [d] days, [h] hours, [m] minutes and [s]
    seconds: the largest unit that is not 0 comes first, and seconds are
    left out from one hour on. *)
Definition uptime_text (d h m s : Z) : string :=
  if 0 <? d then
    Text.of_integer d ++ "d " ++ Text.of_integer h ++ "h " ++ Text.of_integer m ++ "m"
  else if 0 <? h then Text.of_integer h ++ "h " ++ Text.of_integer m ++ "m"
  else if 0 <? m then Text.of_integer m ++ "m " ++ Text.of_integer s ++ "s"
  else Text.of_integer s ++ "s".

(** The regime the performance loop takes for a snapshot:
    [snapshot.regime || snapshot.regimeInfo?.regime || "UNKNOWN"]. *)
Definition regime_of (snapshot : Snapshot) : JsVal :=
  or_else (or_else (get "regime" snapshot)
                   (member_opt (get "regimeInfo" snapshot) "regime"))
          (JStr "UNKNOWN").

(** The label under which the loop counts the snapshot: that regime as a
    property name. *)
Definition regime_label (toS : float -> string) (snapshot : Snapshot) : string :=
  property_key toS (regime_of snapshot).

(** The property names every object literal inherits from
    Object.prototype.  The tally of the loop is such a literal, and
    [regimeCount[regime] || 0] reads an inherited member, not 0, for a
    label of one of these names. *)
Definition Object_prototype : list string :=
  [ "constructor"; "__defineGetter__"; "__defineSetter__"; "hasOwnProperty";
    "__lookupGetter__"; "__lookupSetter__"; "isPrototypeOf";
    "propertyIsEnumerable"; "toString"; "valueOf"; "__proto__";
    "toLocaleString" ].

(** A snapshot whose regime the tally counts as a map would: its label is
    none of the inherited names, and a regime that is an object has no
    [toString] of its own (not being a function, that property would make
    the conversion to a property name throw). *)
Definition countable (toS : float -> string) (snapshot : Snapshot) : bool :=
  negb (bool_decide (regime_label toS snapshot ∈ Object_prototype))
  && match regime_of snapshot with
     | JObj props => match props !! "toString" with
                     | None => true
                     | Some _ => false
                     end
     | _ => true
     end.

(** The entry of a tally for a label that was seen [n] times. *)
Definition tally_entry (n : nat) : option nat :=
  if (n =? 0)%nat then None else Some n.

(** The sum of the counts of a tally. *)
Definition tally_total (m : gmap string nat) : nat :=
  map_fold (fun _ n acc => (n + acc)%nat) 0%nat m.


End Routes.

(** ** The CSV reader (src/web/csvReader.js) *)

Module Csv.

(** What the reader finds at [filePath].  An empty file has size 0 and
    gives no line; [lines] is what [readline] yields, the header line
    first.  [Unreadable] stands for any exception of the file system,
    which the reader's own [catch] absorbs. *)
Inductive File : Type :=
| Missing
| Unreadable
| Content (lines : list string).

(** The object literal [{}] while the reader fills it: its own
    properties, and whether its prototype is still Object.prototype. *)
Record Literal : Type := mkLiteral {
  own : JsObject;
  inherits : bool
}.

Section Reader.

(** ToNumber on a string, behind both [isNaN(value)] and [Number(value)]. *)
Variable ToNumber : string -> float.

(** [values[index] ? values[index].trim() : null]: [None] is [null]. *)
Definition field (values : list string) (index : nat) : option string :=
  match values !! index with
  | Some v => if String.eqb v "" then None else Some (Text.trim v)
  | None => None
  end.

(** The value stored for a field: a number when the text reads as one,
    the text itself otherwise, [null] for no field. *)
Definition convert (value : option string) : JsVal :=
  match value with
  | Some v =>
      if negb (String.eqb v "") && negb (PrimFloat.is_nan (ToNumber v))
      then JNum (ToNumber v)
      else JStr v
  | None => JNull
  end.

(** [obj[key] = value] on the literal.  Every name but "__proto__" becomes
    an own property.  "__proto__" is an accessor of Object.prototype: as
    long as the object inherits it, the assignment runs its setter, which
    makes no own property and, for [null], takes the prototype away; from
    then on "__proto__" is a name like any other. *)
Definition set_property (key : string) (value : JsVal) (obj : Literal) : Literal :=
  if String.eqb key "__proto__" && inherits obj then
    {| own := own obj;
       inherits := match value with JNull => false | _ => true end |}
  else
    {| own := <[key := value]> (own obj); inherits := inherits obj |}.

(** [header.forEach((key, index) => { obj[key] = ... })], from [index] on. *)
Fixpoint assign (values : list string) (index : nat) (header : list string)
    (obj : Literal) : Literal :=
  match header with
  | [] => obj
  | key :: keys =>
      assign values (S index) keys (set_property key (convert (field values index)) obj)
  end.

(** One line of the file as an object: the own properties of the literal
    [{}] after the assignments, which is what the response serialises. *)
Definition parse_line (header : list string) (line : string) : JsObject :=
  own (assign (Text.split "," line) 0 header {| own := ∅; inherits := true |}).

(** [line.split(",").map(h => h.trim())] *)
Definition parse_header (line : string) : list string :=
  Text.trim <$> Text.split "," line.

Record Page : Type := mkPage {
  rows : list JsObject;
  total : Z;
  limit : Z;
  offset : Z;
  hasMore : option bool
}.

(** The result of every early return and of the [catch]: it has no
    [hasMore]. *)
Definition nothing (limit offset : Z) : Page :=
  {| rows := []; total := 0; limit := limit; offset := offset; hasMore := None |}.

(** [readCsvWithPagination(filePath, {limit, offset})] *)
Definition readCsvWithPagination (file : File) (limit offset : Z) : Page :=
  match file with
  | Content (first :: lines) =>
      let header := parse_header first in
      let total := Z.of_nat (length lines) in
      let start := Z.max 0 (total - offset - limit) in
      let stop := total - offset in
      let paginatedLines := slice lines start (Some stop) in
      {| rows := parse_line header <$> paginatedLines;
         total := total;
         limit := limit;
         offset := offset;
         hasMore := Some (offset + limit <? total) |}
  | Content [] | Missing | Unreadable => nothing limit offset
  end.

(** [readLastCsvRows(filePath, limit)] *)
Definition readLastCsvRows (file : File) (limit : Z) : list JsObject :=
  match file with
  | Content (first :: lines) =>
      parse_line (parse_header first) <$> slice lines (- limit) None
  | Content [] | Missing | Unreadable => []
  end.

(** What a column shows for the piece of the line at its position
    ([None] when the line has fewer pieces): [null] for no piece or one
    without characters, the empty string for one of white space only, the
    number the trimmed piece denotes when it denotes one, the trimmed
    piece otherwise. *)
Definition reads_as (piece : option string) (v : JsVal) : Prop :=
  match piece with
  | None => v = JNull
  | Some text =>
      (text = "" -> v = JNull)
      /\ (text <> "" -> Text.trim text = "" -> v = JStr "")
      /\ (Text.trim text <> "" -> PrimFloat.is_nan (ToNumber (Text.trim text)) = true ->
          v = JStr (Text.trim text))
      /\ (Text.trim text <> "" -> PrimFloat.is_nan (ToNumber (Text.trim text)) = false ->
          v = JNum (ToNumber (Text.trim text)))
  end.

End Reader.

(** A table for ToNumber that knows the numerals of the examples and
    takes every other text for NaN. *)
Definition example_ToNumber (s : string) : float :=
  if String.eqb s "0.05" then 0.05%float
  else if String.eqb s "1" then 1%float
  else if String.eqb s "2" then 2%float
  else nan.

End Csv.

(** ** The heartbeat of the channel (src/web/routes/ws.js)

    The timer works on [wss.clients], the library's own set of live
    sockets, and on the [isAlive] flag the connection handler puts on
    each socket.  A terminated socket is closed by the library and leaves
    that set. *)

Module Heartbeat.

(** [isAlive] of every socket in [wss.clients]. *)
Abbreviation Flags := (gmap nat bool).

Inductive Event : Type :=
| Connected (w : nat)
| Pong (w : nat)
| Closed (w : nat)
| Interval.

(** The callback of [setInterval]: a socket whose flag is still [false]
    is terminated; the others are flagged [false] and pinged. *)
Definition interval (alive : Flags) : Flags :=
  (fun _ => false) <$> filter (fun kv => kv.2 = true) alive.

Definition step (alive : Flags) (ev : Event) : Flags :=
  match ev with
  | Connected w => <[w := true]> alive
  | Pong w => alter (fun _ => true) w alive
  | Closed w => delete w alive
  | Interval => interval alive
  end.

Definition run (evs : list Event) (alive : Flags) : Flags :=
  foldl step alive evs.

(** Events among which connection [w] neither answers a ping nor is
    opened anew. *)
Definition silent (w : nat) (evs : list Event) : Prop :=
  Forall (fun ev => ev <> Pong w /\ ev <> Connected w) evs.

(** Events that hold no tick of the timer and do not close [w]. *)
Definition between_ticks (w : nat) (evs : list Event) : Prop :=
  Forall (fun ev => ev <> Interval /\ ev <> Closed w) evs.

(** One period of the timer in which [w] answers the ping: what happens
    before the pong, what happens after it, then the next tick. *)
Definition answered_round (w : nat) (round : list Event * list Event) : list Event :=
  round.1 ++ [Pong w] ++ round.2 ++ [Interval].

End Heartbeat.

(** ** The signal history of the dashboard application (class Dashboard) *)

Module Dashboard.

Definition maxSignalHistory : nat := 50.

(** The [historyEntry] built from an incoming snapshot. *)
Definition historyEntry (data : JsObject) : JsObject :=
  {[ "timestamp" := get "timestamp" data;
     "signal" := or_else (get "signal" data) (JStr "NO TRADE");
     "modelUp" := member_opt (get "probabilities" data) "modelUp";
     "modelDown" := member_opt (get "probabilities" data) "modelDown";
     "marketUp" := member_opt (get "probabilities" data) "marketUp";
     "marketDown" := member_opt (get "probabilities" data) "marketDown";
     "edgeUp" := member_opt (get "edge" data) "edgeUp";
     "edgeDown" := member_opt (get "edge" data) "edgeDown";
     "regime" := get "regime" data ]}.

(** [addToSignalHistory(data)] on [this.signalHistory]: [unshift], then
    one [pop] when the list got longer than [maxSignalHistory]. *)
Definition addToSignalHistory (signalHistory : list JsObject) (data : JsObject)
    : list JsObject :=
  let unshifted := historyEntry data :: signalHistory in
  if (maxSignalHistory <? length unshifted)%nat
  then removelast unshifted
  else unshifted.

End Dashboard.

(** ** Vocabulary for the life of a connection *)

Module Channel.

Import Ws.

(** [getClientCount()] *)
Definition getClientCount (srv : Server) : nat := size (clients srv).

(** Whether [w] is registered after [evs], when it was ([start = true])
    or was not registered before: the last connection, close or error
    event that names [w] decides. *)
Definition registered_after (w : nat) (start : bool) (evs : list Event) : bool :=
  foldl (fun registered ev =>
           match ev with
           | Connection w' _ => if Nat.eqb w w' then true else registered
           | Close w' | Error w' => if Nat.eqb w w' then false else registered
           | _ => registered
           end) start evs.

(** An inbound text that parses to a value whose [type] is "ping". *)
Definition is_ping (parsed : option JsVal) : bool :=
  match parsed ≫= (fun data => member data "type") with
  | Some type => is_string "ping" type
  | None => false
  end.

(** Events in which connection [w] itself takes no part: it neither
    connects nor sends a message. *)
Definition stays_away (w : nat) (evs : list Event) : Prop :=
  Forall (fun ev => match ev with
                    | Connection w' _ | Inbound w' _ _ => w' <> w
                    | _ => True
                    end) evs.

End Channel.

(** * Properties *)

(** ** Numbers *)

Module NumberFacts.
Import SpecFloat.

Lemma iter_pos_nat {A} (f : A -> A) n x :
  iter_pos f n x = Nat.iter (Pos.to_nat n) f x.
Proof.
  revert x. induction n as [n IH|n IH|]; intros x; cbn [iter_pos].
  - rewrite !IH, Pos2Nat.inj_xI, <- Nat.iter_add, Nat.iter_succ_r. f_equal. lia.
  - rewrite !IH, Pos2Nat.inj_xO, <- Nat.iter_add. f_equal. lia.
  - done.
Qed.

(** Shifting a positive mantissa right by fewer places than it has bits
    leaves a positive mantissa. *)
Lemma shr_1_iter_pos k : forall p r s,
  (k < Pos.to_nat (digits2_pos p))%nat ->
  exists q r' s', Nat.iter k shr_1 (Build_shr_record (Zpos p) r s)
                  = Build_shr_record (Zpos q) r' s'.
Proof.
  induction k as [|k IH]; intros p r s Hk.
  - by exists p, r, s.
  - rewrite Nat.iter_succ_r.
    destruct p as [p|p|]; cbn [digits2_pos] in Hk; rewrite ?Pos2Nat.inj_succ in Hk;
      cbn [shr_1]; try (apply IH; lia).
    cbn in Hk. lia.
Qed.

Lemma shr_fexp_pos p e l :
  emin prec emax <= e ->
  exists q r s e', shr_fexp prec emax (Zpos p) e l = (Build_shr_record (Zpos q) r s, e')
                   /\ emin prec emax <= e'.
Proof.
  intros He. unfold shr_fexp, shr.
  destruct (shr_record_of_loc (Zpos p) l) as [m r s] eqn:Hrec.
  assert (m = Zpos p) as -> by (destruct l as [|[]]; cbn in Hrec; congruence).
  cbn [Zdigits2].
  destruct (fexp prec emax (Zpos (digits2_pos p) + e) - e) as [|n|n] eqn:Hn.
  - by exists p, r, s, e.
  - assert (Hlt : (n < digits2_pos p)%positive).
    { unfold fexp in Hn. unfold prec in *. lia. }
    rewrite iter_pos_nat.
    destruct (shr_1_iter_pos (Pos.to_nat n) p r s) as (q & r' & s' & ->); [lia|].
    exists q, r', s', (e + Zpos n). split; [done|lia].
  - by exists p, r, s, e.
Qed.

Lemma round_nearest_even_pos p l : exists q, round_nearest_even (Zpos p) l = Zpos q.
Proof.
  destruct l as [|[]]; cbn [round_nearest_even];
    try destruct (Z.even (Zpos p)); cbn [Z.add]; eauto.
Qed.

Lemma binary_round_aux_proper sx p e l :
  emin prec emax <= e -> proper (binary_round_aux prec emax sx (Zpos p) e l) = true.
Proof.
  intros He. unfold binary_round_aux.
  destruct (shr_fexp_pos p e l He) as (q & r & s & e' & -> & He').
  cbn [shr_m].
  destruct (round_nearest_even_pos q (loc_of_shr_record (Build_shr_record (Zpos q) r s))) as [q' ->].
  destruct (shr_fexp_pos q' e' loc_Exact He') as (q'' & r'' & s'' & e'' & -> & He'').
  cbn [shr_m]. by case_match.
Qed.

Lemma binary_normalize_proper z :
  z <> 0 -> proper (binary_normalize prec emax z 0 false) = true.
Proof.
  intros Hz. destruct z as [|p|p]; [done| |]; cbn [binary_normalize]; unfold binary_round.
  all: destruct (shl_align p 0 _) as [mz ez] eqn:Hal.
  all: apply binary_round_aux_proper.
  all: unfold shl_align in Hal; case_match; inversion Hal; subst; unfold fexp, emin, prec, emax; lia.
Qed.

Lemma binary_round_proper sx p e :
  emin prec emax <= e -> proper (binary_round prec emax sx p e) = true.
Proof.
  intros He. unfold binary_round.
  destruct (shl_align p e _) as [mz ez] eqn:Hal.
  apply binary_round_aux_proper.
  unfold shl_align in Hal.
  case_match; inversion Hal; subst; unfold fexp, emin, prec, emax in *; lia.
Qed.

(** The exponent of a double is never below [emin]. *)
Lemma exponent_bounded x sx mx ex :
  Prim2SF x = S754_finite sx mx ex -> emin prec emax <= ex.
Proof.
  intros Hx. pose proof (Prim2SF_valid x) as Hv. rewrite Hx in Hv.
  unfold valid_binary, bounded, canonical_mantissa in Hv.
  apply andb_true_iff in Hv as [Hc _]. apply Z.eqb_eq in Hc.
  unfold fexp in Hc. lia.
Qed.

(** Scaling by a power of two at least 1 keeps a number away from 0. *)
Lemma ldexp_proper x k :
  0 <= k -> proper (Prim2SF x) = true -> proper (Prim2SF (Z.ldexp x k)) = true.
Proof.
  intros Hk Hx. rewrite Z_ldexp_spec.
  destruct (Prim2SF x) as [| | |sx mx ex] eqn:Hprim; try done.
  cbn [SFldexp]. apply binary_round_proper.
  pose proof (exponent_bounded x sx mx ex Hprim). lia.
Qed.

Lemma of_uint63_proper z :
  0 < z < 2 ^ 63 -> proper (Prim2SF (of_uint63 (Uint63.of_Z z))) = true.
Proof.
  intros Hz. rewrite of_uint63_spec, Uint63.of_Z_spec.
  rewrite Z.mod_small by (change Uint63.wB with (2 ^ 63); lia).
  apply binary_normalize_proper. lia.
Qed.

(** The 63 leading bits of an integer from 2^63 on, with the sticky bit. *)
Lemma leading_bits z sticky :
  2 ^ 63 <= z -> 0 <= sticky <= 1 ->
  0 < Z.lor (Z.shiftr z (Z.log2 z - 62)) sticky < 2 ^ 63.
Proof.
  intros Hz Hs.
  assert (Hlog : 63 <= Z.log2 z) by (apply Z.log2_le_pow2; lia).
  assert (Hcut : Z.log2 (Z.shiftr z (Z.log2 z - 62)) = 62).
  { rewrite Z.log2_shiftr by lia. lia. }
  assert (Hhi : 0 < Z.shiftr z (Z.log2 z - 62)).
  { destruct (Z.le_gt_cases (Z.shiftr z (Z.log2 z - 62)) 0) as [Hle|?]; [|lia].
    apply Z.log2_nonpos in Hle. lia. }
  assert (Hst : Z.log2 sticky = 0).
  { assert (sticky = 0 \/ sticky = 1) as [-> | ->] by lia; done. }
  assert (Hlor : Z.log2 (Z.lor (Z.shiftr z (Z.log2 z - 62)) sticky) = 62).
  { rewrite Z.log2_lor by lia. lia. }
  assert (Hpos : 0 < Z.lor (Z.shiftr z (Z.log2 z - 62)) sticky).
  { destruct (Z.le_gt_cases (Z.lor (Z.shiftr z (Z.log2 z - 62)) sticky) 0) as [Hle|?]; [|lia].
    apply Z.log2_nonpos in Hle. lia. }
  split; [done|].
  apply Z.log2_lt_pow2; lia.
Qed.

Lemma Number_of_positive_proper p : proper (Prim2SF (Number_of_positive p)) = true.
Proof.
  unfold Number_of_positive.
  destruct (Z.ltb_spec (Zpos p) (2 ^ 63)) as [Hlt|Hge].
  - apply of_uint63_proper. lia.
  - apply ldexp_proper.
    + assert (63 <= Z.log2 (Zpos p)) by (apply Z.log2_le_pow2; lia). lia.
    + apply of_uint63_proper, leading_bits; [done|]. case_match; lia.
Qed.

Lemma Number_of_Z_proper z :
  z <> 0 -> proper (Prim2SF (Number_of_Z z)) = true.
Proof.
  intros Hz.
  destruct z as [|p|p]; [done| |]; cbn [Number_of_Z].
  - apply Number_of_positive_proper.
  - rewrite opp_spec. pose proof (Number_of_positive_proper p) as Hp.
    by destruct (Prim2SF _).
Qed.

Example Number_of_Z_examples :
  Number_of_Z 3600 = 3600%float
  /\ Number_of_Z (2 ^ 53 + 1) = 9007199254740992%float
  /\ Number_of_Z (2 ^ 63) = 9223372036854775808%float
  /\ Number_of_Z (2 ^ 64 + 2 ^ 11) = 18446744073709551616%float
  /\ Number_of_Z (2 ^ 64 + 2 ^ 11 + 1) = 18446744073709555712%float
  /\ Number_of_Z (- 2 ^ 1024) = neg_infinity.
Proof. by vm_compute. Qed.

(** [0 / x * 100] is a zero unless [x] is a zero or NaN. *)
Lemma zero_ratio x :
  proper (Prim2SF x) = true -> same_number (0 / x * 100) 0 = true.
Proof.
  intros Hx. unfold same_number.
  rewrite FloatAxioms.eqb_spec, FloatAxioms.mul_spec, FloatAxioms.div_spec.
  destruct (Prim2SF x) as [| | |sx mx ex]; try done.
  all: by destruct s || by destruct sx.
Qed.

End NumberFacts.

(** ** The snapshot store *)

Module StoreFacts.

Import DataStore.

Lemma add_maxSize now iso s ds : maxSize (add now iso s ds) = maxSize ds.
Proof. unfold add. by case_match. Qed.

Lemma add_startTime now iso s ds : startTime (add now iso s ds) = startTime ds.
Proof. unfold add. by case_match. Qed.

Lemma add_all_snoc calls c ds :
  add_all (calls ++ [c]) ds = add (at_ms c) (at_iso c) (raw c) (add_all calls ds).
Proof. unfold add_all. by rewrite fold_left_app. Qed.

Lemma add_all_maxSize calls ds : maxSize (add_all calls ds) = maxSize ds.
Proof.
  induction calls as [|c calls IH] using rev_ind; [done|].
  by rewrite add_all_snoc, add_maxSize.
Qed.


(** Pushing onto a suffix and shifting once leaves the next suffix. *)
Lemma tail_drop_snoc {A} (l : list A) x n :
  (n <= length l)%nat -> tail (drop n l ++ [x]) = drop (S n) (l ++ [x]).
Proof.
  intros Hn. rewrite <- drop_app_le by done.
  generalize (l ++ [x]). clear. intros m.
  revert m. induction n as [|n IH]; intros [|y m]; cbn; done.
Qed.

(** What the buffer holds after any run of [add] on a fresh store of
    capacity [N]: the last [N] stamped snapshots, in the order of the
    calls. *)
Lemma add_all_buffer (N : nat) t0 calls :
  buffer (add_all calls (new (Some (Z.of_nat N)) t0))
  = drop (length calls - N) (stamp <$> calls).
Proof.
  induction calls as [|c calls IH] using rev_ind; [done|].
  rewrite add_all_snoc. unfold add.
  rewrite add_all_maxSize, IH. cbn [new maxSize default buffer].
  rewrite fmap_app, !length_app, length_drop, length_fmap.
  change (stamp <$> [c]) with [stamp c].
  change (timestamped (at_ms c) (at_iso c) (raw c)) with (stamp c).
  cbn [length].
  case_match eqn:Hcmp; unfold id in Hcmp; cbn [buffer].
  - apply Z.ltb_lt in Hcmp.
    rewrite tail_drop_snoc by (rewrite length_fmap; lia).
    f_equal. lia.
  - apply Z.ltb_ge in Hcmp.
    replace (length calls + 1 - N)%nat with 0%nat by lia.
    replace (length calls - N)%nat with 0%nat by lia. done.
Qed.

(** C1.  For every capacity [N] and every sequence of [k] calls of [add]
    on a fresh store, the buffer then has length [min k N] and holds the
    last [min k N] stamped snapshots in the order they were added; its
    oldest element is the one added by call number [k - N + 1] (index
    [k - N] from 0) whenever [k > N].  The sequence is arbitrary, so this
    holds after each call. *)
Theorem add_keeps_last_N (N : nat) t0 calls :
  let ds := add_all calls (new (Some (Z.of_nat N)) t0) in
  let k := length calls in
  length (buffer ds) = (k `min` N)%nat
  /\ buffer ds = drop (k - N) (stamp <$> calls)
  /\ head (buffer ds) = (stamp <$> calls) !! (k - N)%nat.
Proof.
  cbn zeta. rewrite add_all_buffer.
  rewrite length_drop, length_fmap. split_and!; [lia|done|].
  generalize (stamp <$> calls), (length calls - N)%nat. clear.
  intros l n. revert l. induction n as [|n IH]; intros [|x l]; cbn; done.
Qed.

(** [getRecent(c)] for a positive [c]: the last [min c length] snapshots,
    oldest first. *)
Lemma getRecent_positive c ds :
  0 < c ->
  getRecent (Some c) ds = drop (length (buffer ds) - Z.to_nat c) (buffer ds)
  /\ Z.of_nat (length (getRecent (Some c) ds)) = Z.min c (Z.of_nat (length (buffer ds))).
Proof.
  intros Hc. unfold getRecent, slice, relative_index. cbn [default id].
  unfold id. set (l := buffer ds).
  destruct (Z.leb_spec (Z.of_nat (length l)) c) as [Hle|Hgt].
  - replace (length l - Z.to_nat c)%nat with 0%nat by lia. cbn [drop]. split; [done|lia].
  - destruct (Z.ltb_spec (- c) 0) as [_|?]; [|lia].
    rewrite Z.max_l by lia.
    replace (Z.to_nat (Z.of_nat (length l) + - c)) with (length l - Z.to_nat c)%nat by lia.
    rewrite take_ge by (rewrite length_drop; lia).
    split; [done|]. rewrite length_drop. lia.
Qed.

(** C2.  [getRecent(0)] returns the whole buffer, not the last 0
    snapshots: [slice(-0)] is [slice(0)]. *)
Theorem getRecent_zero ds : getRecent (Some 0) ds = buffer ds.
Proof.
  unfold getRecent, slice, relative_index. cbn [default]. unfold id.
  case_match; [done|]. change (- 0 <? 0) with false. cbn iota.
  rewrite Z.min_l by lia. change (Z.to_nat (- 0)) with 0%nat. cbn [drop].
  apply take_ge. lia.
Qed.

(** The store of capacity 3 after the appends 1, 2, 3, 4. *)
Example ring_of_three :
  let ds := add_all [ mkAppend 1 "t1" {[ "value" := JNum 1 ]};
                      mkAppend 2 "t2" {[ "value" := JNum 2 ]};
                      mkAppend 3 "t3" {[ "value" := JNum 3 ]};
                      mkAppend 4 "t4" {[ "value" := JNum 4 ]} ] (new (Some 3) 0) in
  get "value" <$> getAll ds = [JNum 2; JNum 3; JNum 4]
  /\ count (getStats 5 ds) = 3%nat
  /\ utilization (getStats 5 ds) = 100%float
  /\ oldestTimestamp (getStats 5 ds) = JNum 2.
Proof. by vm_compute. Qed.

Example recent_of_nothing :
  getRecent (Some 0) (add 1 "t1" {[ "value" := JNum 1 ]} (new None 0))
  = [timestamped 1 "t1" {[ "value" := JNum 1 ]}].
Proof. by vm_compute. Qed.

(** C10, as stated, fails on a store of capacity 0: the utilization of the
    cleared store is [0 / 0 * 100], which is NaN. *)
Lemma cleared_stats_capacity_zero : ~ cleared_stats 0 (new (Some 0) 0).
Proof.
  unfold cleared_stats. intros (_ & _ & _ & _ & Hu & _). vm_compute in Hu. done.
Qed.

(** C10, amended.  For every store whose capacity is not 0, [clear()]
    resets the buffer and leaves [maxSize] and [startTime] alone; the
    statistics read afterwards have count 0, utilization 0, the capacity
    and the start time of before, and null timestamps. *)
Theorem clear_then_getStats now ds :
  maxSize ds <> 0 ->
  cleared_stats now ds.
Proof.
  intros Hne. unfold cleared_stats. cbn.
  split_and!; try done.
  apply NumberFacts.zero_ratio. by apply NumberFacts.Number_of_Z_proper.
Qed.

Lemma clear_then_getStats_witness :
  let ds := add 1699999995000 "t1" {[ "value" := JNum 1 ]} (new None 1699999990000) in
  maxSize ds <> 0 /\ cleared_stats 1700000000000 ds.
Proof.
  cbn zeta. rewrite add_maxSize. cbn [new maxSize default id].
  assert (Hne : 3600 <> 0) by lia.
  split; [done|].
  apply clear_then_getStats; by rewrite add_maxSize.
Defined.

End StoreFacts.

(** ** GET /history *)

Module HistoryFacts.

Import DataStore Api.

Example parseInt_plain : parseInt "25" = Some 25.
Proof. reflexivity. Qed.

Example parseInt_signed_prefix : parseInt "  -12px" = Some (-12).
Proof. reflexivity. Qed.

Example parseInt_hex : parseInt "0x1F" = Some 31.
Proof. reflexivity. Qed.

Example parseInt_not_a_number : parseInt "abc" = None.
Proof. reflexivity. Qed.

(** The limit never exceeds 1000, and an absent, unreadable or zero
    parameter gives the defaults 100 and 0. *)
Lemma history_limit_clamped q ds : limit (history q ds) <= 1000.
Proof. cbn. lia. Qed.

Lemma history_defaults ds :
  limit (history (mkQuery None None) ds) = 100
  /\ offset (history (mkQuery None None) ds) = 0.
Proof. done. Qed.

Lemma slice_window {A} (l : list A) (a b : Z) :
  0 <= a <= b -> b <= Z.of_nat (length l) ->
  slice l a (Some b) = drop (Z.to_nat a) (take (Z.to_nat b) l).
Proof.
  intros Hab Hb. unfold slice, relative_index.
  destruct (Z.ltb_spec a 0), (Z.ltb_spec b 0); try lia.
  rewrite !Z.min_l by lia.
  rewrite take_drop_commute.
  by replace (Z.to_nat a + Z.to_nat (b - a))%nat with (Z.to_nat b) by lia.
Qed.

(** Inside the range the handler is written for (a positive limit and an
    offset between 0 and the number of entries) the page is the window
    [total - offset - limit, total - offset) cut at 0. *)
Lemma history_in_range q ds :
  let r := history q ds in
  0 < limit r -> 0 <= offset r <= total r ->
  rows r = drop (Z.to_nat (Z.max 0 (total r - offset r - limit r)))
                (take (Z.to_nat (total r - offset r)) (buffer ds))
  /\ Z.of_nat (length (rows r)) = Z.min (limit r) (Z.max 0 (total r - offset r))
  /\ hasMore r = (offset r + limit r <? total r).
Proof.
  cbn zeta. unfold history. cbn [rows total limit offset hasMore getAll].
  generalize (Z.min (or_default (parse_param (q_limit q)) 100) 1000).
  generalize (or_default (parse_param (q_offset q)) 0).
  intros o l Hl Ho.
  rewrite slice_window by lia.
  split_and!; [done| |done].
  rewrite length_drop, length_take. lia.
Qed.

(** C3.  A page past the end is not empty: with two snapshots in the
    store, [GET /history?offset=3] computes [end = 2 - 3 = -1], and
    [slice(0, -1)] returns the oldest snapshot, where the pagination rule
    [min limit (max 0 (total - offset))] gives no row. *)
Theorem history_past_the_end (c1 c2 : Append) t0 :
  let ds := add_all [c1; c2] (new None t0) in
  let r := history {| q_limit := None; q_offset := Some "3" |} ds in
  rows r = [stamp c1]
  /\ total r = 2 /\ limit r = 100 /\ offset r = 3
  /\ Z.min (limit r) (Z.max 0 (total r - offset r)) = 0.
Proof. done. Qed.

End HistoryFacts.

(** ** GET /performance *)

Module PerformanceFacts.

Import DataStore Api.

Section Loop.

Variable toS : float -> string.

(** A truthy value is neither [undefined] nor [null], so reading one of
    its properties cannot throw. *)
Lemma member_truthy v k : truthy v = true -> member v k = Some (member_opt v k).
Proof. by destruct v. Qed.

Lemma accumulate_spec v ch n :
  accumulate v ch n
  = (extend_opt ch (finite_number v), (n + positive_opt (finite_number v))%nat).
Proof.
  unfold accumulate. destruct (finite_number v) as [x|]; cbn; [|f_equal; lia].
  destruct (0 <? x)%float; f_equal; lia.
Qed.


Lemma count_if_cons {A} (p : A -> bool) x l :
  count_if p (x :: l) = (Nat.b2n (p x) + count_if p l)%nat.
Proof. unfold count_if. cbn. by destruct (p x). Qed.











(** C6.  On an empty history the handler answers with the all-zero,
    all-null report with an empty regime distribution; it does not throw. *)
Theorem performance_empty cap t0 :
  performance toS (DataStore.mk cap [] t0) = Some empty_report.
Proof. done. Qed.

End Loop.

(** C9 fails as stated: the average is computed in binary64, where
    [(0 + 0.05 + 0.10) / 2] is the double next above 0.075. *)
Lemma worked_example_not_0_075 :
  ~ worked_example (fun _ => "") (example_store 3600 0 1 "t1" 2 "t2") 0.075.
Proof.
  intros (r & Hr & _ & _ & Havg & _).
  vm_compute in Hr. injection Hr as <-. cbn in Havg.
  apply (f_equal (from_option (same_number 0.075) false)) in Havg.
  vm_compute in Havg. done.
Qed.

(** C9, amended.  On an empty store with room for two snapshots, adding
    {signal: "BUY UP", edge: {edgeUp: 0.05, edgeDown: -0.02}} and then
    {signal: "NO TRADE", edge: {edgeUp: 0.10}} gives [buyUpCount = 1],
    [noTradeCount = 1], [positiveEdgeCount = 2] and [averageEdgeUp =
    0.07500000000000001] (0x1.3333333333334p-4). *)
Theorem worked_example_report toS cap t0 t1 i1 t2 i2 :
  2 <= cap ->
  worked_example toS (example_store cap t0 t1 i1 t2 i2) 0.07500000000000001.
Proof.
  intros Hcap. unfold worked_example, example_store, add.
  cbn [buffer maxSize app length].
  replace (cap <? Z.of_nat 1) with false by (symmetry; apply Z.ltb_ge; lia).
  cbn [buffer maxSize app length].
  replace (cap <? Z.of_nat 2) with false by (symmetry; apply Z.ltb_ge; lia).
  eexists. split; [vm_compute; reflexivity|]. done.
Qed.

Lemma worked_example_report_witness :
  2 <= 3600
  /\ worked_example (fun _ => "") (example_store 3600 0 1 "t1" 2 "t2")
       0.07500000000000001.
Proof.
  split; [lia|]. apply worked_example_report. lia.
Defined.


End PerformanceFacts.

(** ** The WebSocket channel *)

Module WsFacts.

Import DataStore Ws.

(** [send] changes nothing but the socket it is called on. *)
Lemma send_clients w m srv : clients (send w m srv).1 = clients srv.
Proof. unfold send. by case_match. Qed.

Lemma send_sockets w m srv w' :
  sockets (send w m srv).1 !! w'
  = if decide (w' = w)
    then (fun sock => {| readyState := readyState sock; throws := throws sock;
                         sent := sent sock ++ [(m, negb (throws sock (length (sent sock))))] |})
         <$> sockets srv !! w
    else sockets srv !! w'.
Proof.
  unfold send. destruct (sockets srv !! w) as [sock|] eqn:Hw; cbn.
  - case_decide as Heq; [subst; by rewrite lookup_insert_eq|by rewrite lookup_insert_ne].
  - case_decide; by subst.
Qed.

(** One step of the fan-out. *)
Lemma deliver_clients m f c : clients (server (deliver m f c)) = clients (server f).
Proof.
  unfold deliver. repeat case_match; try done; cbn.
  all: match goal with H : send _ _ _ = _ |- _ =>
         apply (f_equal fst) in H; cbn in H; subst; apply send_clients end.
Qed.

Lemma deliver_sockets m f c w :
  sockets (server (deliver m f c)) !! w
  = if decide (w = c) then delivered m <$> sockets (server f) !! c
    else sockets (server f) !! w.
Proof.
  unfold deliver, delivered.
  destruct (sockets (server f) !! c) as [sock|] eqn:Hc; cbn.
  - destruct (readyState sock =? 1) eqn:Hopen.
    + destruct (send c m (server f)) as [srv ok] eqn:Hsend.
      assert (Hs : sockets srv !! w = sockets (send c m (server f)).1 !! w)
        by (by rewrite Hsend).
      rewrite send_sockets, Hc in Hs. cbn in Hs.
      by destruct ok; cbn; rewrite Hs.
    + case_decide; by subst.
  - case_decide; by subst.
Qed.

(** The whole fan-out over a duplicate-free list of connections. *)
Lemma fanout_clients m ws : forall f,
  clients (server (foldl (deliver m) f ws)) = clients (server f).
Proof.
  induction ws as [|c ws IH]; intros f; cbn [foldl]; [done|].
  by rewrite IH, deliver_clients.
Qed.

Lemma fanout_sockets m ws : NoDup ws -> forall f w,
  sockets (server (foldl (deliver m) f ws)) !! w
  = if decide (w ∈ ws) then delivered m <$> sockets (server f) !! w
    else sockets (server f) !! w.
Proof.
  induction 1 as [|c ws Hc Hnd IH]; intros f w; cbn [foldl].
  - case_decide as Hin; [by apply elem_of_nil in Hin|done].
  - rewrite IH, deliver_sockets.
    destruct (decide (w = c)) as [->|Hne].
    + rewrite decide_False by done. by rewrite decide_True by left.
    + destruct (decide (w ∈ ws)) as [Hin|Hnin].
      * by rewrite decide_True by (by right).
      * rewrite decide_False; [done|]. by intros [?|?]%elem_of_cons.
Qed.

(** [broadcast] as a whole: the registry is left as it was, and every
    registered socket has been through [delivered]. *)
Lemma broadcast_clients data now srv :
  clients (broadcast data now srv) = clients srv.
Proof.
  unfold broadcast. case_match; cbn; by rewrite fanout_clients.
Qed.

Lemma broadcast_sockets data now srv w :
  sockets (broadcast data now srv) !! w
  = if decide (w ∈ clients srv)
    then delivered (Msg_update data now) <$> sockets srv !! w
    else sockets srv !! w.
Proof.
  unfold broadcast.
  assert (Hfold := fanout_sockets (Msg_update data now) (elements (clients srv))
                     (NoDup_elements _)
                     {| server := srv; successCount := 0; failCount := 0 |} w).
  cbn [server] in Hfold.
  destruct (0 <? failCount _)%nat; cbn [log sockets]; rewrite Hfold.
  all: destruct (decide (w ∈ clients srv)) as [Hin|Hnin].
  all: try (by rewrite decide_True by (by apply elem_of_elements)).
  all: by rewrite decide_False by (by rewrite elem_of_elements).
Qed.

Lemma sent_to_broadcast data now srv w sock :
  w ∈ clients srv -> sockets srv !! w = Some sock -> readyState sock = 1 ->
  sent_to w (broadcast data now srv)
  = sent sock ++ [(Msg_update data now, negb (throws sock (length (sent sock))))].
Proof.
  intros Hin Hw Hopen. unfold sent_to.
  rewrite broadcast_sockets, decide_True, Hw by done. cbn.
  unfold delivered. by rewrite Hopen.
Qed.

Lemma received_broadcast outcome data now srv w :
  w ∈ clients srv -> next_send_throws outcome w srv ->
  received w (broadcast data now srv)
  = received w srv ++ (if outcome then [] else [Msg_update data now]).
Proof.
  intros Hin (sock & Hw & Hopen & Hthrows). unfold received.
  rewrite (sent_to_broadcast _ _ _ _ sock) by done.
  unfold sent_to. rewrite Hw, Hthrows.
  rewrite filter_app, fmap_app.
  by destruct outcome.
Qed.

(** C4 fails as stated: the consumer whose [send] threw is still in the
    registry after [broadcast]. *)
Lemma thrower_stays_registered : ~ thrower_dropped ∅ 0 three_consumers.
Proof.
  intros Hclaim. destruct (Hclaim 2%nat) as [Hdropped _].
  - unfold three_consumers. cbn. set_solver.
  - eexists. split_and!; [by vm_compute|done..].
  - apply Hdropped. rewrite broadcast_clients. unfold three_consumers. cbn. set_solver.
Qed.

(** C4, amended.  [broadcast] returns normally whatever the sends do and
    leaves the registry as it was, the consumer whose [send] threw
    included.  Each registered OPEN consumer gets exactly one call of
    [send] with the update message, and the outcome of that call depends
    on that consumer alone: a consumer whose [send] does not throw
    receives the update even when the sends to others throw, and one whose
    [send] throws receives nothing. *)
Theorem broadcast_isolates_failures data now srv :
  let srv' := broadcast data now srv in
  clients srv' = clients srv
  /\ (forall w sock,
        w ∈ clients srv -> sockets srv !! w = Some sock -> readyState sock = 1 ->
        sent_to w srv'
        = sent sock ++ [(Msg_update data now, negb (throws sock (length (sent sock))))])
  /\ (forall w, w ∈ clients srv -> next_send_throws false w srv ->
        received w srv' = received w srv ++ [Msg_update data now])
  /\ (forall w, w ∈ clients srv -> next_send_throws true w srv ->
        received w srv' = received w srv /\ w ∈ clients srv').
Proof.
  cbn zeta. split_and!.
  - apply broadcast_clients.
  - intros w sock. apply sent_to_broadcast.
  - intros w Hin Hok. by rewrite (received_broadcast false).
  - intros w Hin Hthrows. rewrite (received_broadcast true) by done.
    by rewrite app_nil_r, broadcast_clients.
Qed.

Lemma broadcast_isolates_failures_witness :
  (1%nat ∈ clients three_consumers /\ next_send_throws false 1 three_consumers)
  /\ received 1 (broadcast ∅ 0 three_consumers) = [Msg_update ∅ 0].
Proof.
  assert (Hin : 1%nat ∈ clients three_consumers) by (cbn; set_solver).
  assert (Hok : next_send_throws false 1 three_consumers).
  { eexists. split_and!; [by vm_compute|done..]. }
  split; [done|].
  exact (proj1 (proj2 (proj2 (broadcast_isolates_failures ∅ 0 three_consumers))) 1%nat Hin Hok).
Defined.

(** *** The connection handler *)

Lemma sent_to_send w m srv w' :
  sent_to w' (send w m srv).1
  = sent_to w' srv
    ++ (if decide (w' = w)
        then match sockets srv !! w with
             | Some sock => [(m, negb (throws sock (length (sent sock))))]
             | None => []
             end
        else []).
Proof.
  unfold sent_to. rewrite send_sockets.
  case_decide as Heq; [subst w'|by rewrite app_nil_r].
  by destruct (sockets srv !! w).
Qed.

Lemma sent_to_try_send w m line srv w' :
  sent_to w' (try_send w m line srv) = sent_to w' (send w m srv).1.
Proof. unfold try_send. destruct (send w m srv) as [srv' []]; done. Qed.

Lemma on_connection_sent ds w behaviour srv :
  sent_to w (on_connection ds w (accept w behaviour srv))
  = match getLast ds with
    | Some current => [(Msg_snapshot current, negb (behaviour 0%nat))]
    | None => []
    end.
Proof.
  unfold on_connection. destruct (getLast ds) as [current|].
  - rewrite sent_to_try_send, sent_to_send. cbn.
    rewrite decide_True by done. unfold sent_to. cbn.
    by rewrite !lookup_insert_eq.
  - unfold sent_to. cbn. by rewrite lookup_insert_eq.
Qed.

(** No handler but the connection handler of [w] itself ever sends [w] a
    "snapshot" message, and none takes back a call already made. *)
Lemma step_sent w sys ev :
  is_connection w ev = false ->
  exists extra, sent_to w (step sys ev).2 = sent_to w sys.2 ++ extra
                /\ no_snapshot extra.
Proof.
  destruct sys as [ds srv]. intros Hev.
  destruct ev as [w' b|w' parsed now|w'|w'|c|data now]; cbn [step snd].
  - cbn in Hev. apply Nat.eqb_neq in Hev.
    exists []. split; [|by constructor]. rewrite app_nil_r.
    unfold on_connection. destruct (getLast ds).
    + rewrite sent_to_try_send, sent_to_send, decide_False, app_nil_r by done.
      unfold sent_to. cbn. by rewrite lookup_insert_ne.
    + unfold sent_to. cbn. by rewrite lookup_insert_ne.
  - unfold on_message.
    destruct (parsed ≫= _) as [type|]; [destruct (is_string "ping" type)|].
    + rewrite sent_to_try_send, sent_to_send. eexists. split; [done|].
      case_decide; [case_match|]; repeat constructor.
    + exists []. split; [by rewrite app_nil_r|constructor].
    + exists []. split; [by rewrite app_nil_r|constructor].
  - exists []. split; [|constructor]. rewrite app_nil_r.
    unfold sent_to, on_close. cbn. rewrite lookup_alter.
    case_decide; [subst|done]. by destruct (sockets srv !! w).
  - exists []. split; [by rewrite app_nil_r|constructor].
  - exists []. split; [by rewrite app_nil_r|constructor].
  - unfold sent_to. rewrite broadcast_sockets.
    destruct (sockets srv !! w) as [sock|] eqn:Hw; cbn.
    + case_decide; cbn; [|exists []; split; [by rewrite app_nil_r|constructor]].
      unfold delivered. case_match; cbn.
      * eexists. split; [done|]. repeat constructor.
      * exists []. split; [by rewrite app_nil_r|constructor].
    + exists []. split; [by case_decide|constructor].
Qed.

Lemma run_sent w evs : forall sys,
  not_reconnected w evs ->
  exists extra, sent_to w (run evs sys).2 = sent_to w sys.2 ++ extra
                /\ no_snapshot extra.
Proof.
  induction evs as [|ev evs IH]; intros sys Hevs.
  - exists []. split; [by rewrite app_nil_r|constructor].
  - apply Forall_cons in Hevs as [Hev Hevs].
    destruct (step_sent w sys ev Hev) as (extra1 & H1 & Hno1).
    destruct (IH (step sys ev) Hevs) as (extra2 & H2 & Hno2).
    exists (extra1 ++ extra2). split; [|by apply Forall_app].
    change (run (ev :: evs) sys) with (run evs (step sys ev)).
    by rewrite H2, H1, app_assoc.
Qed.

(** C8.  When a consumer connects while the history is not empty, the
    connection handler calls [send] on it exactly once, with the "snapshot"
    message holding [getLast()]; whatever happens afterwards (appends,
    broadcasts, pings, other consumers coming and going), that call stays
    the first one on this connection and no other "snapshot" message
    follows, so it precedes every "update".  When the history is empty the
    handler sends nothing. *)
Theorem initial_snapshot_first ds srv w behaviour :
  let srv' := (step (ds, srv) (Connection w behaviour)).2 in
  (forall latest, getLast ds = Some latest ->
     sent_to w srv' = [(Msg_snapshot latest, negb (behaviour 0%nat))]
     /\ (forall evs, not_reconnected w evs ->
          exists later,
            sent_to w (run evs (ds, srv')).2
            = (Msg_snapshot latest, negb (behaviour 0%nat)) :: later
            /\ no_snapshot later))
  /\ (getLast ds = None -> sent_to w srv' = []).
Proof.
  cbn zeta. cbn [step snd]. split.
  - intros latest Hlast.
    assert (Hnow := on_connection_sent ds w behaviour srv).
    rewrite Hlast in Hnow. split; [done|].
    intros evs Hevs.
    destruct (run_sent w evs (ds, on_connection ds w (accept w behaviour srv)) Hevs)
      as (later & Hrun & Hno).
    exists later. split; [|done]. rewrite Hrun. cbn [snd]. by rewrite Hnow.
  - intros Hempty. by rewrite on_connection_sent, Hempty.
Qed.

Example afterwards_trace :
  received 7 (run afterwards (step (one_snapshot, idle) (Connection 7 (fun _ => false)))).2
  = [ Msg_snapshot (timestamped 1 "t1" {[ "price" := JNum 67000 ]});
      Msg_update {[ "price" := JNum 67001 ]} 2;
      Msg_pong 3;
      Msg_update {[ "price" := JNum 67002 ]} 4 ].
Proof. by vm_compute. Qed.

Lemma initial_snapshot_first_witness :
  let latest := timestamped 1 "t1" {[ "price" := JNum 67000 ]} in
  let srv' := (step (one_snapshot, idle) (Connection 7 (fun _ => false))).2 in
  (getLast one_snapshot = Some latest /\ not_reconnected 7 afterwards)
  /\ exists later,
       sent_to 7 (run afterwards (one_snapshot, srv')).2
       = (Msg_snapshot latest, true) :: later
       /\ no_snapshot later.
Proof.
  cbn zeta.
  assert (Hlast : getLast one_snapshot
                  = Some (timestamped 1 "t1" {[ "price" := JNum 67000 ]})) by done.
  assert (Hevs : not_reconnected 7 afterwards) by (repeat constructor).
  split; [done|].
  destruct (initial_snapshot_first one_snapshot idle 7 (fun _ => false)) as [Hfirst _].
  destruct (Hfirst _ Hlast) as [_ Hrun].
  exact (Hrun afterwards Hevs).
Defined.

End WsFacts.

(** * Further properties *)

(** ** More on the snapshot store *)

Module StoreMore.

Import DataStore Routes.

Lemma last_snoc_tail {A} (l : list A) x :
  (1 <= length l)%nat -> last (tail (l ++ [x])) = Some x.
Proof.
  destruct l as [|y l]; cbn; [lia|]. intros _. apply last_snoc.
Qed.

Lemma timestamped_timestamp now iso s : get "timestamp" (timestamped now iso s) = JNum now.
Proof.
  unfold get, timestamped. by rewrite lookup_insert_ne, lookup_insert_eq.
Qed.

(** X1.  On a store of capacity at least 1, the snapshot just added is
    what [getLast()] and GET /current return; it carries the store's own
    [timestamp] and [_addedAt], whatever the producer had put under these
    names, and every other property of the producer's snapshot as it
    was. *)
Theorem added_is_latest now iso s ds :
  1 <= maxSize ds ->
  getLast (add now iso s ds) = Some (timestamped now iso s)
  /\ current (add now iso s ds) = Ok (timestamped now iso s)
  /\ get "timestamp" (timestamped now iso s) = JNum now
  /\ get "_addedAt" (timestamped now iso s) = JStr iso
  /\ (forall k, k <> "timestamp" -> k <> "_addedAt" ->
        timestamped now iso s !! k = s !! k).
Proof.
  intros Hcap.
  assert (Hlast : getLast (add now iso s ds) = Some (timestamped now iso s)).
  { unfold getLast, add. rewrite length_app. cbn [length].
    case_match eqn:Hcmp; cbn [buffer].
    - apply Z.ltb_lt in Hcmp. apply last_snoc_tail. lia.
    - apply last_snoc. }
  split_and!; [done|by unfold current; rewrite Hlast|apply timestamped_timestamp| |].
  - unfold get, timestamped. by rewrite lookup_insert_eq.
  - intros k H1 H2. unfold timestamped. by rewrite !lookup_insert_ne.
Qed.

Lemma added_is_latest_witness :
  let ds := new None 0 in
  let s : Snapshot := {[ "timestamp" := JNum 5; "price" := JNum 67000 ]} in
  1 <= maxSize ds
  /\ current (add 9 "t9" s ds) = Ok (timestamped 9 "t9" s)
  /\ get "timestamp" (timestamped 9 "t9" s) = JNum 9.
Proof.
  cbn zeta.
  assert (Hcap : 1 <= maxSize (new None 0)) by (cbn; lia).
  split; [done|].
  destruct (added_is_latest 9 "t9" {[ "timestamp" := JNum 5; "price" := JNum 67000 ]}
              (new None 0) Hcap) as (_ & Hcur & Hts & _).
  by split.
Defined.

(** X2.  A store built with a capacity of 0 or less never retains
    anything: after any run of [add] its buffer is empty, [getLast()] is
    [null] and GET /current answers 404. *)
Theorem nothing_kept_without_capacity cap t0 calls :
  cap <= 0 ->
  let ds := add_all calls (new (Some cap) t0) in
  buffer ds = [] /\ getLast ds = None
  /\ current ds = NotFound "No data available yet".
Proof.
  intros Hcap. cbn zeta.
  assert (Hbuf : buffer (add_all calls (new (Some cap) t0)) = []).
  { induction calls as [|c calls IH] using rev_ind; [done|].
    rewrite StoreFacts.add_all_snoc. unfold add.
    rewrite StoreFacts.add_all_maxSize, IH. cbn.
    case_match eqn:Hcmp; [done|]. apply Z.ltb_ge in Hcmp. lia. }
  unfold current, getLast. by rewrite Hbuf.
Qed.

Lemma nothing_kept_without_capacity_witness :
  -1 <= 0
  /\ current (add_all [mkAppend 1 "t1" ∅; mkAppend 2 "t2" ∅] (new (Some (-1)) 0))
     = NotFound "No data available yet".
Proof.
  assert (H : -1 <= 0) by lia. split; [done|].
  exact (proj2 (proj2 (nothing_kept_without_capacity (-1) 0
                         [mkAppend 1 "t1" ∅; mkAppend 2 "t2" ∅] H))).
Defined.

(** X3.  A store that is within its capacity stays within it, whatever it
    held to begin with: after [k] more calls of [add] it holds the last
    [min (length + k) maxSize] elements of its old contents followed by
    the new stamped snapshots, the oldest of the old ones being evicted
    first. *)
Theorem add_all_within_capacity ds calls :
  Z.of_nat (length (buffer ds)) <= maxSize ds ->
  let n := Z.of_nat (length (buffer ds) + length calls) in
  buffer (add_all calls ds)
  = drop (Z.to_nat (n - maxSize ds)) (buffer ds ++ (stamp <$> calls))
  /\ Z.of_nat (length (buffer (add_all calls ds))) = Z.min n (maxSize ds).
Proof.
  intros Hfit. cbn zeta.
  assert (Hbuf : buffer (add_all calls ds)
                 = drop (Z.to_nat (Z.of_nat (length (buffer ds) + length calls)
                                   - maxSize ds))
                        (buffer ds ++ (stamp <$> calls))).
  { induction calls as [|c calls IH] using rev_ind.
    - cbn. rewrite app_nil_r, Nat.add_0_r.
      by replace (Z.to_nat _) with 0%nat by lia.
    - rewrite StoreFacts.add_all_snoc. unfold add.
      rewrite StoreFacts.add_all_maxSize, IH.
      rewrite !length_app, length_drop, length_app, length_fmap.
      rewrite fmap_app, app_assoc. cbn [length fmap list_fmap].
      change (timestamped (at_ms c) (at_iso c) (raw c)) with (stamp c).
      set (old := buffer ds ++ (stamp <$> calls)).
      assert (Hold : length old = (length (buffer ds) + length calls)%nat)
        by (unfold old; rewrite length_app, length_fmap; lia).
      case_match eqn:Hcmp; cbn [buffer].
      + apply Z.ltb_lt in Hcmp.
        rewrite StoreFacts.tail_drop_snoc by lia. f_equal. lia.
      + apply Z.ltb_ge in Hcmp.
        replace (Z.to_nat _) with 0%nat by lia.
        by replace (Z.to_nat _) with 0%nat by lia. }
  split; [done|].
  rewrite Hbuf, length_drop, length_app, length_fmap. lia.
Qed.

Lemma add_all_within_capacity_witness :
  let ds := add_all [mkAppend 1 "t1" ∅; mkAppend 2 "t2" ∅] (new (Some 2) 0) in
  Z.of_nat (length (buffer ds)) <= maxSize ds
  /\ buffer (add_all [mkAppend 3 "t3" ∅] ds)
     = [timestamped 2 "t2" ∅; timestamped 3 "t3" ∅].
Proof.
  cbn zeta.
  assert (Hfit : Z.of_nat (length (buffer (add_all [mkAppend 1 "t1" ∅; mkAppend 2 "t2" ∅]
                                              (new (Some 2) 0))))
                 <= maxSize (add_all [mkAppend 1 "t1" ∅; mkAppend 2 "t2" ∅] (new (Some 2) 0)))
    by (by vm_compute).
  split; [done|].
  rewrite (proj1 (add_all_within_capacity _ [mkAppend 3 "t3" ∅] Hfit)).
  by vm_compute.
Defined.

(** X4.  Whatever [count] is, [getRecent(count)] returns a suffix of the
    buffer, most recent last: its last [count] snapshots when [count] is
    positive, the whole buffer when [count] is 0, and for a negative
    [count] the buffer without its [-count] oldest snapshots.  With no
    argument [count] is 100. *)
Theorem getRecent_suffix count ds :
  let c := default 100 count in
  let len := length (buffer ds) in
  getRecent count ds
  = drop (if 0 <? c then (len - Z.to_nat c)%nat else Z.to_nat (- c)) (buffer ds).
Proof.
  cbn zeta. unfold getRecent, slice, relative_index.
  generalize (default 100 count). intros c. set (l := buffer ds).
  destruct (Z.leb_spec (Z.of_nat (length l)) c) as [Hle|Hgt].
  - destruct (Z.ltb_spec 0 c) as [Hpos|Hneg].
    + by replace (length l - Z.to_nat c)%nat with 0%nat by lia.
    + assert (length l = 0%nat) as Hnil by lia.
      apply length_zero_iff_nil in Hnil. rewrite Hnil. by rewrite drop_nil.
  - destruct (Z.ltb_spec (- c) 0) as [Hpos|Hneg].
    + destruct (Z.ltb_spec 0 c) as [_|?]; [|lia].
      rewrite Z.max_l by lia.
      replace (Z.to_nat (Z.of_nat (length l) + - c)) with (length l - Z.to_nat c)%nat by lia.
      apply take_ge. rewrite length_drop. lia.
    + destruct (Z.ltb_spec 0 c) as [?|_]; [lia|].
      rewrite take_ge by (rewrite length_drop; lia).
      destruct (Z.min_spec (- c) (Z.of_nat (length l))) as [[_ ->]|[Hbig ->]]; [done|].
      rewrite Nat2Z.id, drop_all. symmetry. apply drop_ge. lia.
Qed.

Example getRecent_negative_count :
  let ds := add_all [mkAppend 1 "t1" ∅; mkAppend 2 "t2" ∅; mkAppend 3 "t3" ∅] (new None 0) in
  getRecent (Some (-1)) ds = [timestamped 2 "t2" ∅; timestamped 3 "t3" ∅].
Proof. by vm_compute. Qed.

(** X5.  On a store of capacity [N >= 1] that has seen [k >= 1] calls of
    [add], [getStats()] counts [min k N] snapshots, and its newest and
    oldest timestamps are the clock readings of the last call and of call
    number [k - N + 1] (the first call while [k <= N]): the store's own
    stamps, not what the producer sent. *)
Theorem getStats_timestamps (N : nat) t0 now calls oldest newest :
  (1 <= N)%nat ->
  last calls = Some newest ->
  calls !! (length calls - N)%nat = Some oldest ->
  let st := getStats now (add_all calls (new (Some (Z.of_nat N)) t0)) in
  count st = (length calls `min` N)%nat
  /\ newestTimestamp st = JNum (at_ms newest)
  /\ oldestTimestamp st = JNum (at_ms oldest)
  /\ stats_maxSize st = Z.of_nat N.
Proof.
  intros HN Hnewest Holdest. cbn zeta. unfold getStats.
  rewrite StoreFacts.add_all_maxSize, StoreFacts.add_all_buffer.
  cbn [count newestTimestamp oldestTimestamp stats_maxSize new maxSize default].
  assert (Hk : (1 <= length calls)%nat).
  { destruct calls; [done|cbn; lia]. }
  split_and!; [rewrite length_drop, length_fmap; lia| | |done].
  - assert (Hlast : last (drop (length calls - N) (stamp <$> calls))
                    = last (stamp <$> calls)).
    { rewrite !last_lookup, lookup_drop, length_drop, length_fmap. f_equal. lia. }
    rewrite Hlast, fmap_last, Hnewest. cbn. apply timestamped_timestamp.
  - rewrite head_lookup, lookup_drop, Nat.add_0_r, list_lookup_fmap, Holdest. cbn.
    apply timestamped_timestamp.
Qed.

Lemma getStats_timestamps_witness :
  let calls := [mkAppend 10 "t1" {[ "timestamp" := JNum 1 ]};
                mkAppend 20 "t2" ∅; mkAppend 30 "t3" ∅] in
  ((1 <= 2)%nat /\ last calls = Some (mkAppend 30 "t3" ∅)
   /\ calls !! (length calls - 2)%nat = Some (mkAppend 20 "t2" ∅))
  /\ newestTimestamp (getStats 40 (add_all calls (new (Some 2) 0))) = JNum 30
  /\ oldestTimestamp (getStats 40 (add_all calls (new (Some 2) 0))) = JNum 20.
Proof.
  cbn zeta.
  assert (HN : (1 <= 2)%nat) by lia.
  split; [done|].
  destruct (getStats_timestamps 2 0 40
              [mkAppend 10 "t1" {[ "timestamp" := JNum 1 ]};
               mkAppend 20 "t2" ∅; mkAppend 30 "t3" ∅]
              (mkAppend 20 "t2" ∅) (mkAppend 30 "t3" ∅) HN eq_refl eq_refl)
    as (_ & Hnew & Hold & _).
  by split.
Defined.

End StoreMore.

(** ** The order of finite numbers *)

Module FloatOrder.

Import SpecFloat Routes.










End FloatOrder.

(** ** More on the REST router *)

Module RoutesMore.

Import DataStore Api Routes.

(** *** Paging through the history *)

Lemma adjacent_windows {A} (l : list A) (a b c : nat) :
  (a <= b)%nat -> (b <= c)%nat ->
  drop a (take b l) ++ drop b (take c l) = drop a (take c l).
Proof.
  intros Hab Hbc.
  rewrite <- (drop_take_drop (take c l) a b) by done.
  by rewrite take_take, Nat.min_l by done.
Qed.

(** X6.  [hasMore] can be trusted: when a page (positive limit, offset
    not negative) says [hasMore], the page that starts where it ends is
    not empty and the two are adjacent in the history, with no snapshot
    missing or repeated; when it says no more, the page begins with the
    oldest retained snapshot. *)
Theorem hasMore_is_right q1 q2 ds :
  let r1 := history q1 ds in
  let r2 := history q2 ds in
  0 < limit r1 -> 0 <= offset r1 <= total r1 ->
  limit r2 = limit r1 -> offset r2 = offset r1 + limit r1 ->
  (hasMore r1 = true ->
     rows r2 <> []
     /\ rows r2 ++ rows r1
        = drop (Z.to_nat (Z.max 0 (total r1 - offset r1 - 2 * limit r1)))
               (take (Z.to_nat (total r1 - offset r1)) (buffer ds)))
  /\ (hasMore r1 = false ->
        rows r1 = take (Z.to_nat (total r1 - offset r1)) (buffer ds)).
Proof.
  cbn zeta. intros Hl Ho Hl2 Ho2.
  destruct (HistoryFacts.history_in_range q1 ds Hl Ho) as (Hrows1 & Hlen1 & Hmore1).
  assert (Htotal : total (history q2 ds) = total (history q1 ds)) by done.
  assert (Hbuf : total (history q1 ds) = Z.of_nat (length (buffer ds))) by done.
  split.
  - intros Hmore. rewrite Hmore1 in Hmore. apply Z.ltb_lt in Hmore.
    destruct (HistoryFacts.history_in_range q2 ds) as (Hrows2 & Hlen2 & _);
      [lia|lia|].
    split.
    + intros Hnil. rewrite Hnil in Hlen2. cbn [length] in Hlen2. lia.
    + rewrite Hrows1, Hrows2, Htotal, Hl2, Ho2.
      rewrite (Z.max_r 0 (total (history q1 ds) - offset (history q1 ds)
                          - limit (history q1 ds))) by lia.
      replace (total (history q1 ds) - (offset (history q1 ds) + limit (history q1 ds))
               - limit (history q1 ds))
        with (total (history q1 ds) - offset (history q1 ds) - 2 * limit (history q1 ds))
        by lia.
      replace (total (history q1 ds) - (offset (history q1 ds) + limit (history q1 ds)))
        with (total (history q1 ds) - offset (history q1 ds) - limit (history q1 ds))
        by lia.
      apply adjacent_windows; lia.
  - intros Hmore. rewrite Hmore1 in Hmore. apply Z.ltb_ge in Hmore.
    rewrite Hrows1. by rewrite Z.max_l by lia.
Qed.

Lemma hasMore_is_right_witness :
  let ds := add_all [mkAppend 1 "t1" ∅; mkAppend 2 "t2" ∅; mkAppend 3 "t3" ∅] (new None 0) in
  let r1 := history (mkQuery (Some "2") None) ds in
  let r2 := history (mkQuery (Some "2") (Some "2")) ds in
  (0 < limit r1 /\ 0 <= offset r1 <= total r1
   /\ limit r2 = limit r1 /\ offset r2 = offset r1 + limit r1 /\ hasMore r1 = true)
  /\ rows r2 ++ rows r1 = buffer ds.
Proof.
  cbn zeta.
  set (ds := add_all [mkAppend 1 "t1" ∅; mkAppend 2 "t2" ∅; mkAppend 3 "t3" ∅] (new None 0)).
  assert (Hl : 0 < limit (history (mkQuery (Some "2") None) ds)) by (by vm_compute).
  assert (Ho : 0 <= offset (history (mkQuery (Some "2") None) ds)
               <= total (history (mkQuery (Some "2") None) ds))
    by (split; by vm_compute).
  assert (Hl2 : limit (history (mkQuery (Some "2") (Some "2")) ds)
                = limit (history (mkQuery (Some "2") None) ds)) by (by vm_compute).
  assert (Ho2 : offset (history (mkQuery (Some "2") (Some "2")) ds)
                = offset (history (mkQuery (Some "2") None) ds)
                  + limit (history (mkQuery (Some "2") None) ds)) by (by vm_compute).
  assert (Hmore : hasMore (history (mkQuery (Some "2") None) ds) = true) by (by vm_compute).
  split; [done|].
  destruct (hasMore_is_right _ _ ds Hl Ho Hl2 Ho2) as [Hyes _].
  destruct (Hyes Hmore) as [_ ->]. by vm_compute.
Defined.

(** *** formatUptime *)

Lemma rem_of_nonneg a b : 0 <= a -> 0 < b -> Z.rem a b = a mod b.
Proof. intros. apply Z.rem_mod_nonneg; lia. Qed.

(** X7.  For an uptime of [ms >= 0] milliseconds the numbers in the text
    are the digits of the whole seconds [ms / 1000] written in days,
    hours (below 24), minutes (below 60) and seconds (below 60); the text
    shows days, hours and minutes from one day on, hours and minutes from
    one hour on, minutes and seconds from one minute on, and seconds
    alone below that.  For a negative [ms] it is the (negative) floor of
    the seconds followed by "s". *)
Theorem formatUptime_fields ms :
  (0 <= ms ->
   exists d h m s,
     0 <= d /\ 0 <= h < 24 /\ 0 <= m < 60 /\ 0 <= s < 60
     /\ ms / 1000 = ((d * 24 + h) * 60 + m) * 60 + s
     /\ formatUptime ms = uptime_text d h m s)
  /\ (ms < 0 -> formatUptime ms = (Text.of_integer (ms / 1000) ++ "s")%string).
Proof.
  split.
  - intros Hms. unfold formatUptime.
    set (seconds := ms / 1000).
    assert (Hsec : 0 <= seconds) by (apply Z.div_pos; lia).
    set (minutes := seconds / 60).
    assert (Hmin : 0 <= minutes) by (apply Z.div_pos; lia).
    set (hours := minutes / 60).
    assert (Hhrs : 0 <= hours) by (apply Z.div_pos; lia).
    set (days := hours / 24).
    assert (Hdays : 0 <= days) by (apply Z.div_pos; lia).
    rewrite !rem_of_nonneg by lia.
    exists days, (hours mod 24), (minutes mod 60), (seconds mod 60).
    pose proof (Z.mod_pos_bound hours 24 ltac:(lia)).
    pose proof (Z.mod_pos_bound minutes 60 ltac:(lia)).
    pose proof (Z.mod_pos_bound seconds 60 ltac:(lia)).
    pose proof (Z.div_mod hours 24 ltac:(lia)) as Eh. fold days in Eh.
    pose proof (Z.div_mod minutes 60 ltac:(lia)) as Em. fold hours in Em.
    pose proof (Z.div_mod seconds 60 ltac:(lia)) as Es. fold minutes in Es.
    split_and!; try lia. unfold uptime_text.
    destruct (Z.ltb_spec 0 days) as [Hd|Hd]; [done|].
    assert (hours mod 24 = hours) as -> by lia.
    destruct (Z.ltb_spec 0 hours) as [Hh|Hh]; [done|].
    assert (minutes mod 60 = minutes) as -> by lia.
    destruct (Z.ltb_spec 0 minutes) as [Hm|Hm]; [done|].
    by assert (seconds mod 60 = seconds) as -> by lia.
  - intros Hms. unfold formatUptime.
    assert (Hsec : ms / 1000 < 0) by (apply Z.div_lt_upper_bound; lia).
    assert (Hmin : ms / 1000 / 60 < 0) by (apply Z.div_lt_upper_bound; lia).
    assert (Hhrs : ms / 1000 / 60 / 60 < 0) by (apply Z.div_lt_upper_bound; lia).
    assert (Hdays : ms / 1000 / 60 / 60 / 24 < 0) by (apply Z.div_lt_upper_bound; lia).
    destruct (Z.ltb_spec 0 (ms / 1000 / 60 / 60 / 24)); [lia|].
    destruct (Z.ltb_spec 0 (ms / 1000 / 60 / 60)); [lia|].
    destruct (Z.ltb_spec 0 (ms / 1000 / 60)); [lia|]. done.
Qed.

Example formatUptime_examples :
  formatUptime 3600000 = "1h 0m"
  /\ formatUptime 59999 = "59s"
  /\ formatUptime 61000 = "1m 1s"
  /\ formatUptime 93784000 = "1d 2h 3m"
  /\ formatUptime (-1) = "-1s".
Proof. by vm_compute. Qed.

Lemma formatUptime_fields_witness :
  (0 <= 93784000
   /\ exists d h m s,
        0 <= d /\ 0 <= h < 24 /\ 0 <= m < 60 /\ 0 <= s < 60
        /\ 93784000 / 1000 = ((d * 24 + h) * 60 + m) * 60 + s
        /\ formatUptime 93784000 = uptime_text d h m s)
  /\ (-1 < 0 /\ formatUptime (-1) = (Text.of_integer (-1 / 1000) ++ "s")%string).
Proof.
  assert (H1 : 0 <= 93784000) by lia.
  assert (H2 : -1 < 0) by lia.
  split; (split; [done|]).
  - exact (proj1 (formatUptime_fields 93784000) H1).
  - exact (proj2 (formatUptime_fields (-1)) H2).
Defined.

End RoutesMore.

(** ** More on GET /performance *)

Module PerformanceMore.

Import DataStore Api Routes.

Section Report.

Variable toS : float -> string.

(** *** The regime tally *)

Lemma body_regimes a s :
  exists a', body toS a s = Some a'
    /\ acc_regimes a'
       = <[regime_label toS s := S (default 0%nat (acc_regimes a !! regime_label toS s))]>
           (acc_regimes a).
Proof.
  unfold body, aggregate_edges, regime_label, regime_of.
  destruct (truthy (get "edge" s)) eqn:Htruthy.
  - rewrite !PerformanceFacts.member_truthy by done. cbn [mbind option_bind].
    rewrite !PerformanceFacts.accumulate_spec. cbn [mbind option_bind].
    eexists. split; [done|]. cbn [count_regime acc_regimes count_signal].
    rewrite Nat.add_1_r. unfold count_signal. by repeat case_match.
  - cbn [mbind option_bind]. eexists. split; [done|].
    cbn [count_regime acc_regimes]. rewrite Nat.add_1_r.
    unfold count_signal. by repeat case_match.
Qed.

Lemma tally_total_bump (m : gmap string nat) key :
  tally_total (<[key := S (default 0%nat (m !! key))]> m) = S (tally_total m).
Proof.
  unfold tally_total.
  destruct (m !! key) as [n|] eqn:Hkey; cbn [default from_option]; unfold id.
  - rewrite <- insert_delete_eq.
    rewrite map_fold_insert_L; [|intros; lia|apply lookup_delete_eq].
    rewrite (map_fold_delete_L _ _ key n m); [|intros; lia|done].
    done.
  - rewrite map_fold_insert_L; [done|intros; lia|done].
Qed.

Lemma for_of_regimes data : forall a,
  exists a', for_of toS data a = Some a'
    /\ (forall key,
          let n := count_if (fun s => String.eqb (regime_label toS s) key) data in
          acc_regimes a' !! key
          = if (n =? 0)%nat then acc_regimes a !! key
            else Some (default 0%nat (acc_regimes a !! key) + n)%nat)
    /\ tally_total (acc_regimes a') = (tally_total (acc_regimes a) + length data)%nat.
Proof.
  induction data as [|s data IH]; intros a.
  - exists a. split_and!; [done|done|]. cbn. lia.
  - destruct (body_regimes a s) as (b & Hb & Hregimes).
    destruct (IH b) as (a' & Ha' & Hlookup & Htotal).
    exists a'. cbn [for_of]. rewrite Hb. cbn [mbind option_bind].
    split_and!; [done| |].
    + intros key. cbn zeta. rewrite PerformanceFacts.count_if_cons.
      specialize (Hlookup key). cbn zeta in Hlookup. rewrite Hlookup, Hregimes.
      destruct (String.eqb_spec (regime_label toS s) key) as [->|Hne].
      * rewrite lookup_insert_eq. cbn [Nat.b2n default from_option].
        destruct (count_if _ data); cbn; f_equal; lia.
      * rewrite lookup_insert_ne by done. done.
    + rewrite Htotal, Hregimes, tally_total_bump. cbn [length]. lia.
Qed.

(** X8.  In the report of GET /performance every snapshot is counted
    under exactly one regime label, namely [regime], else
    [regimeInfo.regime], else "UNKNOWN": when no label of the history is
    a name inherited from Object.prototype (and no regime is an object
    with a [toString] of its own), the entry of a label is the number of
    snapshots that carry it, a label carried by none has no entry, and
    the counts add up to [totalSignals]. *)
Theorem regimeDistribution_counts ds :
  Forall (fun s => countable toS s = true) (buffer ds) ->
  exists r, performance toS ds = Some r
    /\ (forall key,
          regimeDistribution r !! key
          = tally_entry (count_if (fun s => String.eqb (regime_label toS s) key)
                                  (buffer ds)))
    /\ tally_total (regimeDistribution r) = totalSignals r.
Proof.
  intros _.
  destruct (for_of_regimes (buffer ds) initial) as (a & Ha & Hlookup & Htotal).
  unfold performance, getAll.
  destruct (buffer ds) as [|s data] eqn:Hbuf.
  - eexists. split_and!; done.
  - rewrite <- Hbuf in *. rewrite Ha.
    replace (length (buffer ds) =? 0)%nat with false by (rewrite Hbuf; done).
    cbn [mbind option_bind]. eexists. split; [done|].
    cbn [regimeDistribution totalSignals]. split.
    + intros key. specialize (Hlookup key). cbn zeta in Hlookup.
      rewrite Hlookup. unfold tally_entry. cbn [initial acc_regimes].
      rewrite lookup_empty. by case_match.
    + rewrite Htotal. done.
Qed.

Example regime_fallbacks :
  regime_label toS {[ "regime" := JStr "TREND_UP" ]} = "TREND_UP"
  /\ regime_label toS {[ "regime" := JStr "";
                         "regimeInfo" := JObj {[ "regime" := JStr "CHOP" ]} ]} = "CHOP"
  /\ regime_label toS {[ "regimeInfo" := JNull ]} = "UNKNOWN"
  /\ regime_label toS ∅ = "UNKNOWN".
Proof. done. Qed.

(** *** The maxima *)




End Report.

Lemma regimeDistribution_counts_witness :
  let toS := fun _ : float => "NaN" in
  let ds := add 3 "t3" {[ "regimeInfo" := JObj {[ "regime" := JStr "TREND_UP" ]} ]}
              (add 2 "t2" {[ "signal" := JStr "NO TRADE" ]}
                 (add 1 "t1" {[ "regime" := JStr "TREND_UP" ]} (new None 0))) in
  Forall (fun s => countable toS s = true) (buffer ds)
  /\ exists r, performance toS ds = Some r
       /\ regimeDistribution r !! "TREND_UP" = Some 2%nat
       /\ regimeDistribution r !! "UNKNOWN" = Some 1%nat
       /\ regimeDistribution r !! "CHOP" = None
       /\ tally_total (regimeDistribution r) = totalSignals r.
Proof.
  cbn zeta.
  assert (H : Forall (fun s => countable (fun _ : float => "NaN") s = true)
                (buffer (add 3 "t3" {[ "regimeInfo" := JObj {[ "regime" := JStr "TREND_UP" ]} ]}
                           (add 2 "t2" {[ "signal" := JStr "NO TRADE" ]}
                              (add 1 "t1" {[ "regime" := JStr "TREND_UP" ]} (new None 0)))))).
  { by repeat constructor. }
  split; [done|].
  destruct (regimeDistribution_counts (fun _ : float => "NaN") _ H)
    as (r & Hr & Hlookup & Htotal).
  exists r. split_and!; [done| | | |done].
  all: by rewrite Hlookup.
Defined.

(** Outside that condition the tally object is no map: the model keeps a
    count where the literal keeps none. *)
Example countable_examples :
  countable (fun _ : float => "NaN") {[ "regime" := JStr "constructor" ]} = false
  /\ countable (fun _ : float => "NaN") {[ "regimeInfo" := JObj {[ "regime" := JStr "__proto__" ]} ]}
     = false
  /\ countable (fun _ : float => "NaN") {[ "regime" := JObj {[ "toString" := JNull ]} ]} = false
  /\ countable (fun _ : float => "NaN") {[ "regime" := JObj {[ "name" := JStr "CHOP" ]} ]} = true
  /\ countable (fun _ : float => "NaN") ∅ = true.
Proof. by vm_compute. Qed.

End PerformanceMore.

(** ** More on the WebSocket channel *)

Module ChannelMore.

Import DataStore Ws Channel.

#[local] Set Warnings "-clear-no-such-hyp".

Lemma try_send_clients w m line srv : clients (try_send w m line srv) = clients srv.
Proof.
  unfold try_send. destruct (send w m srv) as [srv' ok] eqn:Hsend.
  assert (clients srv' = clients srv) as <-
    by (rewrite <- (WsFacts.send_clients w m srv); by rewrite Hsend).
  by destruct ok.
Qed.

Lemma try_send_sockets w m line srv w' :
  w' <> w -> sockets (try_send w m line srv) !! w' = sockets srv !! w'.
Proof.
  intros Hne. unfold try_send. destruct (send w m srv) as [srv' ok] eqn:Hsend.
  assert (Hs : sockets srv' !! w' = sockets (send w m srv).1 !! w') by (by rewrite Hsend).
  rewrite WsFacts.send_sockets, decide_False in Hs by done.
  by destruct ok.
Qed.

Lemma on_message_clients w parsed now srv :
  clients (on_message w parsed now srv) = clients srv.
Proof.
  unfold on_message. repeat case_match; try done. apply try_send_clients.
Qed.

(** What each event does to the registry. *)
Lemma step_clients sys ev :
  clients (step sys ev).2
  = match ev with
    | Connection w _ => {[w]} ∪ clients sys.2
    | Close w | Error w => clients sys.2 ∖ {[w]}
    | _ => clients sys.2
    end.
Proof.
  destruct sys as [ds srv], ev as [w b|w parsed now|w|w|c|data now]; cbn [step snd]; try done.
  - unfold on_connection. case_match; [|done]. by rewrite try_send_clients.
  - apply on_message_clients.
  - apply WsFacts.broadcast_clients.
Qed.

(** X10.  The registry holds exactly the consumers whose last connection,
    close or error event is a connection: a consumer is registered (and
    counted by [getClientCount]) from its connection until its first
    close or error, and no append, broadcast or inbound message changes
    that. *)
Theorem registry_follows_events evs : forall sys w,
  w ∈ clients (run evs sys).2
  <-> registered_after w (bool_decide (w ∈ clients sys.2)) evs = true.
Proof.
  induction evs as [|ev evs IH]; intros sys w.
  - cbn. by rewrite bool_decide_eq_true.
  - change (run (ev :: evs) sys) with (run evs (step sys ev)).
    rewrite IH. unfold registered_after. cbn [foldl].
    assert (bool_decide (w ∈ clients (step sys ev).2)
            = match ev with
              | Connection w' _ =>
                  if Nat.eqb w w' then true else bool_decide (w ∈ clients sys.2)
              | Close w' | Error w' =>
                  if Nat.eqb w w' then false else bool_decide (w ∈ clients sys.2)
              | _ => bool_decide (w ∈ clients sys.2)
              end) as ->; [|done].
    rewrite step_clients.
    destruct ev as [w' b|w' parsed now|w'|w'|c|data now]; try done.
    all: destruct (Nat.eqb_spec w w') as [->|Hne].
    all: apply bool_decide_ext || (try apply bool_decide_eq_true)
         || (try apply bool_decide_eq_false); set_solver.
Qed.

Example registry_example :
  clients (run [Connection 1 (fun _ => false); Connection 2 (fun _ => false);
                Broadcast ∅ 1; Close 1; Connection 3 (fun _ => true); Error 3]
               (new None 0, idle)).2 = {[2%nat]}
  /\ getClientCount (run [Connection 1 (fun _ => false); Connection 2 (fun _ => false);
                          Broadcast ∅ 1; Close 1; Connection 3 (fun _ => true); Error 3]
                         (new None 0, idle)).2 = 1%nat.
Proof. by vm_compute. Qed.

(** X11.  An inbound message never changes the registry and never touches
    another consumer's connection.  A message that parses to a value whose
    [type] is "ping" is answered with one "pong" to its sender; any other
    message (one that does not parse, [null], a value without that type)
    is answered with nothing. *)
Theorem inbound_only_answers_ping w parsed now srv :
  let srv' := on_message w parsed now srv in
  clients srv' = clients srv
  /\ (forall w', w' <> w -> sockets srv' !! w' = sockets srv !! w')
  /\ sent_to w srv'
     = sent_to w srv
       ++ (if is_ping parsed
           then match sockets srv !! w with
                | Some sock => [(Msg_pong now, negb (throws sock (length (sent sock))))]
                | None => []
                end
           else []).
Proof.
  cbn zeta. split_and!.
  - apply on_message_clients.
  - intros w' Hne. unfold on_message. repeat case_match; try done.
    by apply try_send_sockets.
  - unfold on_message, is_ping.
    destruct (parsed ≫= _) as [type|]; [destruct (is_string "ping" type)|].
    + rewrite WsFacts.sent_to_try_send, WsFacts.sent_to_send. by rewrite decide_True.
    + by rewrite app_nil_r.
    + by rewrite app_nil_r.
Qed.

Example inbound_examples :
  received 7 (on_message 7 (Some (JObj {[ "type" := JStr "ping" ]})) 3
                (accept 7 (fun _ => false) idle)) = [Msg_pong 3]
  /\ received 7 (on_message 7 (Some (JObj {[ "type" := JStr "subscribe" ]})) 3
                   (accept 7 (fun _ => false) idle)) = []
  /\ received 7 (on_message 7 (Some JNull) 3 (accept 7 (fun _ => false) idle)) = []
  /\ received 7 (on_message 7 None 3 (accept 7 (fun _ => false) idle)) = [].
Proof. by vm_compute. Qed.

(** X12.  [broadcast] makes no call of [send] on a connection that is not
    registered, nor on a registered one that is not OPEN: such a
    connection is left exactly as it was. *)
Theorem broadcast_skips_closed data now srv w :
  ((w ∉ clients srv)
   \/ exists sock, sockets srv !! w = Some sock /\ readyState sock <> 1) ->
  sockets (broadcast data now srv) !! w = sockets srv !! w.
Proof.
  intros [Hout|(sock & Hw & Hclosed)]; rewrite WsFacts.broadcast_sockets.
  - by rewrite decide_False.
  - case_decide; [|done]. rewrite Hw. cbn. unfold delivered.
    by rewrite (proj2 (Z.eqb_neq _ _) Hclosed).
Qed.

Lemma broadcast_skips_closed_witness :
  let srv := on_close 2 three_consumers in
  ((2%nat ∉ clients srv)
   \/ exists sock, sockets srv !! 2%nat = Some sock /\ readyState sock <> 1)
  /\ sent_to 2 (broadcast ∅ 5 srv) = [].
Proof.
  cbn zeta.
  assert (H : (2%nat ∉ clients (on_close 2 three_consumers))
              \/ exists sock, sockets (on_close 2 three_consumers) !! 2%nat = Some sock
                              /\ readyState sock <> 1).
  { left. unfold three_consumers. cbn. set_solver. }
  split; [done|].
  unfold sent_to. rewrite (broadcast_skips_closed ∅ 5 _ 2%nat H). by vm_compute.
Defined.

(** After a close or an error the consumer gets nothing more. *)
Lemma step_away w sys ev :
  match ev with
  | Connection w' _ | Inbound w' _ _ => w' <> w
  | _ => True
  end ->
  w ∉ clients sys.2 ->
  (w ∉ clients (step sys ev).2) /\ sent_to w (step sys ev).2 = sent_to w sys.2.
Proof.
  intros Hev Hout. split.
  - rewrite step_clients. destruct ev; set_solver.
  - destruct sys as [ds srv].
    destruct ev as [w' b|w' parsed now|w'|w'|c|data now]; cbn [step snd] in *.
    + unfold sent_to, on_connection. destruct (getLast ds).
      * rewrite try_send_sockets by done. cbn. by rewrite lookup_insert_ne.
      * cbn. by rewrite lookup_insert_ne.
    + unfold sent_to.
      by rewrite (proj1 (proj2 (inbound_only_answers_ping w' parsed now srv)) w).
    + unfold sent_to, on_close. cbn. rewrite lookup_alter.
      case_decide; [subst|done]. by destruct (sockets srv !! w).
    + done.
    + done.
    + unfold sent_to. by rewrite WsFacts.broadcast_sockets, decide_False.
Qed.

(** X13.  Once a consumer has closed or failed, nothing is sent to it any
    more: whatever appends, broadcasts and other consumers' events follow,
    it stays out of the registry and no call of [send] is made on its
    connection. *)
Theorem closed_consumer_left_alone ds srv w evs :
  stays_away w evs ->
  (let sys := run evs (step (ds, srv) (Close w)) in
   (w ∉ clients sys.2) /\ sent_to w sys.2 = sent_to w srv)
  /\ (let sys := run evs (step (ds, srv) (Error w)) in
      (w ∉ clients sys.2) /\ sent_to w sys.2 = sent_to w srv).
Proof.
  intros Hevs.
  assert (Hrun : forall sys, w ∉ clients sys.2 ->
            (w ∉ clients (run evs sys).2)
            /\ sent_to w (run evs sys).2 = sent_to w sys.2).
  { induction Hevs as [|ev evs Hev Hevs IH]; intros sys Hout; [done|].
    change (run (ev :: evs) sys) with (run evs (step sys ev)).
    destruct (step_away w sys ev Hev Hout) as [Hout' Hsent].
    destruct (IH _ Hout') as [Hfinal Hsent']. split; [done|]. by rewrite Hsent', Hsent. }
  cbn zeta. split.
  - destruct (Hrun (step (ds, srv) (Close w))) as [Hout ->];
      [rewrite step_clients; set_solver|].
    split; [done|]. cbn [step snd]. unfold sent_to, on_close. cbn.
    rewrite lookup_alter, decide_True by done. by destruct (sockets srv !! w).
  - destruct (Hrun (step (ds, srv) (Error w))) as [Hout ->];
      [rewrite step_clients; set_solver|].
    by split.
Qed.

Lemma closed_consumer_left_alone_witness :
  let connected := step (one_snapshot, idle) (Connection 7 (fun _ => false)) in
  let evs := [Add (mkAppend 2 "t2" ∅); Broadcast ∅ 2; Connection 8 (fun _ => false);
              Broadcast ∅ 3] in
  let closed := run evs (step connected (Close 7)) in
  let kept_open := run evs connected in
  stays_away 7 evs
  /\ 7%nat ∈ clients connected.2
  /\ (7%nat ∉ clients closed.2)
  /\ sent_to 7 closed.2 = sent_to 7 connected.2
  /\ length (sent_to 7 connected.2) = 1%nat
  /\ length (sent_to 7 kept_open.2) = 3%nat.
Proof.
  cbn zeta.
  assert (H : stays_away 7 [Add (mkAppend 2 "t2" ∅); Broadcast ∅ 2;
                            Connection 8 (fun _ => false); Broadcast ∅ 3]).
  { repeat constructor. lia. }
  split; [done|].
  destruct (closed_consumer_left_alone one_snapshot
              (step (one_snapshot, idle) (Connection 7 (fun _ => false))).2 7 _ H)
    as [[Hout Hsent] _].
  split_and!; [|exact Hout|exact Hsent| |].
  - rewrite step_clients. set_solver.
  - by vm_compute.
  - by vm_compute.
Defined.

End ChannelMore.

(** ** The heartbeat *)

Module HeartbeatFacts.

Import Heartbeat.

Lemma interval_lookup alive w :
  interval alive !! w
  = match alive !! w with
    | Some true => Some false
    | _ => None
    end.
Proof.
  unfold interval. rewrite lookup_fmap, map_lookup_filter.
  destruct (alive !! w) as [[]|]; cbn; [|by rewrite option_guard_False|done].
  by rewrite option_guard_True.
Qed.

(** A flag that is not [true] stays so while the socket is silent. *)
Lemma silent_step w alive ev :
  ev <> Pong w /\ ev <> Connected w ->
  alive !! w <> Some true -> step alive ev !! w <> Some true.
Proof.
  intros [Hpong Hconn] Hflag. destruct ev as [w'|w'|w'|]; cbn [step].
  - rewrite lookup_insert_ne; [done|congruence].
  - rewrite lookup_alter_ne; [done|congruence].
  - destruct (decide (w' = w)) as [->|Hne];
      [by rewrite lookup_delete_eq|by rewrite lookup_delete_ne].
  - rewrite interval_lookup. by destruct (alive !! w) as [[]|].
Qed.

(** X14.  A connection that answers no ping does not outlive the second
    tick of the timer: if it sends no pong between two ticks it is
    terminated at the second one, whatever else happens in between. *)
Theorem silent_socket_is_terminated alive evs w :
  silent w evs ->
  run (Interval :: evs ++ [Interval]) alive !! w = None.
Proof.
  intros Hevs. unfold run. cbn [foldl]. rewrite foldl_app. cbn [foldl step].
  assert (Hflag : interval alive !! w <> Some true).
  { rewrite interval_lookup. by destruct (alive !! w) as [[]|]. }
  revert Hflag. generalize (interval alive). clear alive.
  induction Hevs as [|ev evs Hev Hevs IH]; intros alive Hflag; cbn [foldl].
  - rewrite interval_lookup. by destruct (alive !! w) as [[]|].
  - apply IH. by apply silent_step.
Qed.

Lemma silent_socket_is_terminated_witness :
  silent 1 [Connected 2; Pong 2]
  /\ run (Interval :: [Connected 2; Pong 2] ++ [Interval])
         (step (step ∅ (Connected 1)) (Pong 1)) !! 1%nat = None.
Proof.
  assert (H : silent 1 [Connected 2; Pong 2]) by (repeat constructor; congruence).
  split; [done|]. by apply silent_socket_is_terminated.
Defined.

(** Between two ticks a flag that is [true] stays [true], and a socket
    that is not closed stays in the set. *)
Lemma between_ticks_present w evs : forall alive,
  between_ticks w evs -> is_Some (alive !! w) -> is_Some (foldl step alive evs !! w).
Proof.
  induction evs as [|ev evs IH]; intros alive Hevs Hin; [done|].
  apply Forall_cons in Hevs as [[Htick Hclose] Hevs]. cbn [foldl]. apply IH; [done|].
  destruct ev as [w'|w'|w'|]; cbn [step]; [| | |done].
  - destruct (decide (w' = w)) as [->|Hne];
      [by rewrite lookup_insert_eq|by rewrite lookup_insert_ne].
  - rewrite lookup_alter. case_decide; [subst|done]. by destruct Hin as [b ->].
  - rewrite lookup_delete_ne; [done|congruence].
Qed.

Lemma between_ticks_alive w evs : forall alive,
  between_ticks w evs -> alive !! w = Some true -> foldl step alive evs !! w = Some true.
Proof.
  induction evs as [|ev evs IH]; intros alive Hevs Hin; [done|].
  apply Forall_cons in Hevs as [[Htick Hclose] Hevs]. cbn [foldl]. apply IH; [done|].
  destruct ev as [w'|w'|w'|]; cbn [step]; [| | |done].
  - destruct (decide (w' = w)) as [->|Hne];
      [by rewrite lookup_insert_eq|by rewrite lookup_insert_ne].
  - rewrite lookup_alter. case_decide; [subst|done]. by rewrite Hin.
  - rewrite lookup_delete_ne; [done|congruence].
Qed.

(** X15.  A connection that answers every ping is never terminated by the
    heartbeat: over any number of periods in each of which it sends a
    pong (and is not closed otherwise), it is still in the set of live
    sockets. *)
Theorem responsive_socket_survives w rounds : forall alive,
  is_Some (alive !! w) ->
  Forall (fun round => between_ticks w round.1 /\ between_ticks w round.2) rounds ->
  is_Some (run (concat (answered_round w <$> rounds)) alive !! w).
Proof.
  induction rounds as [|[before after] rounds IH]; intros alive Hin Hrounds; [done|].
  apply Forall_cons in Hrounds as [[Hbefore Hafter] Hrounds]. cbn in Hbefore, Hafter.
  cbn [fmap list_fmap concat]. unfold run. rewrite foldl_app. apply IH; [|done].
  unfold answered_round. cbn [fst snd].
  rewrite !foldl_app. cbn [foldl step].
  rewrite interval_lookup.
  rewrite (between_ticks_alive w after); [done|done|].
  rewrite lookup_alter, decide_True by done.
  by destruct (between_ticks_present w before alive Hbefore Hin) as [b ->].
Qed.

Lemma responsive_socket_survives_witness :
  let alive := step ∅ (Connected 1) in
  let rounds := [([Connected 2], [Closed 2]); ([], [])] in
  (is_Some (alive !! 1%nat)
   /\ Forall (fun round => between_ticks 1 round.1 /\ between_ticks 1 round.2) rounds)
  /\ is_Some (run (concat (answered_round 1 <$> rounds)) alive !! 1%nat).
Proof.
  cbn zeta.
  assert (Hin : is_Some (step ∅ (Connected 1) !! 1%nat)) by (by eexists).
  assert (Hrounds : Forall (fun round => between_ticks 1 round.1 /\ between_ticks 1 round.2)
                      [([Connected 2], [Closed 2]); ([], [])]).
  { repeat constructor; congruence. }
  split; [done|]. by apply responsive_socket_survives.
Defined.

End HeartbeatFacts.

(** ** The signal history of the dashboard *)

Module DashboardFacts.

Import Dashboard.

Lemma add_is_take signalHistory data :
  (length signalHistory <= maxSignalHistory)%nat ->
  addToSignalHistory signalHistory data
  = take maxSignalHistory (historyEntry data :: signalHistory).
Proof.
  intros Hlen. unfold addToSignalHistory. cbn [length].
  destruct (Nat.ltb_spec maxSignalHistory (S (length signalHistory))) as [Hfull|Hroom].
  - rewrite removelast_firstn_len. cbn [length]. f_equal. lia.
  - symmetry. apply take_ge. cbn [length]. lia.
Qed.

(** X16.  The dashboard keeps the newest entries first and never more than
    50 of them: starting from a history of at most 50 entries, after any
    run of updates it holds the 50 first entries of the new entries in
    reverse order of arrival followed by the old ones. *)
Theorem signalHistory_newest_first datas : forall signalHistory,
  (length signalHistory <= maxSignalHistory)%nat ->
  foldl addToSignalHistory signalHistory datas
  = take maxSignalHistory (rev (historyEntry <$> datas) ++ signalHistory)
  /\ (length (foldl addToSignalHistory signalHistory datas) <= maxSignalHistory)%nat.
Proof.
  induction datas as [|data datas IH]; intros h Hlen; cbn [foldl].
  - cbn. rewrite take_ge by done. done.
  - rewrite add_is_take by done.
    destruct (IH (take maxSignalHistory (historyEntry data :: h))) as [-> Hbound];
      [rewrite length_take; lia|].
    split.
    + cbn [fmap list_fmap rev]. rewrite <- app_assoc. cbn [app].
      set (newer := rev (historyEntry <$> datas)).
      destruct (Nat.le_gt_cases maxSignalHistory (length newer)) as [Hmany|Hfew].
      * by rewrite !take_app_le by done.
      * rewrite !take_app_ge by lia. f_equal.
        rewrite take_take. f_equal. lia.
    + rewrite length_take. lia.
Qed.

Lemma signalHistory_newest_first_witness :
  let d1 : JsObject := {[ "signal" := JStr "BUY UP" ]} in
  let d2 : JsObject := ∅ in
  (length ([] : list JsObject) <= maxSignalHistory)%nat
  /\ foldl addToSignalHistory [] [d1; d2] = [historyEntry d2; historyEntry d1].
Proof.
  cbn zeta.
  assert (H : (length ([] : list JsObject) <= maxSignalHistory)%nat)
    by (unfold maxSignalHistory; cbn; lia).
  split; [done|].
  by rewrite (proj1 (signalHistory_newest_first _ [] H)).
Defined.

End DashboardFacts.

(** ** The CSV reader *)

Module CsvFacts.

Import Csv.

#[local] Set Warnings "-clear-no-such-hyp".

Example split_examples :
  Text.split "," "a,b,,c" = ["a"; "b"; ""; "c"]
  /\ Text.split "," "" = [""]
  /\ Text.split "," "a," = ["a"; ""]
  /\ Text.trim "  up 1 " = "up 1"
  /\ Text.trim "   " = "".
Proof. by vm_compute. Qed.

(** [trim] strips the byte order mark and the no-break space with the
    ASCII white space, on both sides, and nothing inside. *)
Example trim_examples :
  Text.trim (Text.utf8 [239; 187; 191]%nat ++ "time" ++ Text.utf8 [194; 160; 13]%nat) = "time"
  /\ Text.trim (" a" ++ Text.utf8 [226; 128; 137]%nat ++ "b" ++ Text.utf8 [227; 128; 128]%nat) 
     = ("a" ++ Text.utf8 [226; 128; 137]%nat ++ "b")%string
  /\ Text.trim (Text.utf8 [194; 160; 32; 226; 128; 168]%nat) = ""
  /\ Text.trim (Text.utf8 [195; 160]%nat) = Text.utf8 [195; 160]%nat.
Proof. by vm_compute. Qed.

Section Reader.

Variable ToNumber : string -> float.

(** The code's own reading of a piece is the one described by [reads_as]. *)
Lemma convert_reads_as values index :
  reads_as ToNumber (values !! index) (convert ToNumber (field values index)).
Proof.
  unfold reads_as, field, convert.
  destruct (values !! index) as [text|]; [|done].
  destruct (String.eqb_spec text "") as [->|Htext].
  - split_and!; done.
  - destruct (String.eqb_spec (Text.trim text) "") as [Hblank|Hfull]; cbn [negb andb].
    + rewrite Hblank. split_and!; done.
    + destruct (PrimFloat.is_nan (ToNumber (Text.trim text))) eqn:Hnan; cbn [negb];
        split_and!; done.
Qed.

Lemma set_property_other key k v obj :
  key <> k -> own (set_property k v obj) !! key = own obj !! key.
Proof.
  intros Hne. unfold set_property. case_match; cbn [own]; [done|].
  by rewrite lookup_insert_ne.
Qed.

Lemma set_property_named key v obj :
  key <> "__proto__" -> own (set_property key v obj) !! key = Some v.
Proof.
  intros Hne. unfold set_property.
  destruct (String.eqb_spec key "__proto__") as [?|_]; [done|].
  cbn [andb own]. by rewrite lookup_insert_eq.
Qed.

Lemma set_property_inherits key v obj :
  key <> "__proto__" -> inherits (set_property key v obj) = inherits obj.
Proof.
  intros Hne. unfold set_property.
  by destruct (String.eqb_spec key "__proto__") as [?|_].
Qed.

Lemma assign_other values header : forall index obj key,
  key ∉ header ->
  own (assign ToNumber values index header obj) !! key = own obj !! key.
Proof.
  induction header as [|k header IH]; intros index obj key Hout; [done|].
  apply not_elem_of_cons in Hout as [Hne Hout]. cbn [assign].
  by rewrite IH, set_property_other by done.
Qed.

(** The last column of a name decides what the key holds. *)
Lemma assign_column values header : forall index obj i key,
  key <> "__proto__" -> header !! i = Some key ->
  (forall later, (i < later)%nat -> header !! later <> Some key) ->
  own (assign ToNumber values index header obj) !! key
  = Some (convert ToNumber (field values (index + i))).
Proof.
  induction header as [|k header IH]; intros index obj i key Hkey Hi Hlast; [done|].
  cbn [assign]. destruct i as [|i]; cbn in Hi.
  - injection Hi as ->.
    assert (Hout : key ∉ header).
    { intros Hin. apply list_elem_of_lookup in Hin as [j Hj].
      by apply (Hlast (S j)); [lia|]. }
    by rewrite assign_other, set_property_named, Nat.add_0_r by done.
  - rewrite (IH _ _ i key Hkey Hi).
    + do 3 f_equal. lia.
    + intros later Hlater. apply (Hlast (S later)). lia.
Qed.

(** With distinct names, a column named "__proto__" leaves no key. *)
Lemma assign_proto values header : forall index obj,
  NoDup header -> inherits obj = true ->
  own (assign ToNumber values index header obj) !! "__proto__" = own obj !! "__proto__".
Proof.
  induction header as [|k header IH]; intros index obj Hnd Hinh; [done|].
  apply NoDup_cons in Hnd as [Hk Hnd]. cbn [assign].
  destruct (decide (k = "__proto__")) as [->|Hne].
  - rewrite assign_other by done. unfold set_property. by rewrite Hinh.
  - rewrite IH; [|done|by rewrite set_property_inherits].
    by rewrite set_property_other.
Qed.

(** X17.  A line of the file becomes an object whose keys are header
    names: a name that is not in the header is no key.  A key other than
    "__proto__" holds what the line has at the position of the last
    column of that name: [null] when the line is too short there or the
    piece has no characters, the empty string when the piece is white
    space only, a number when the trimmed piece reads as one, the trimmed
    piece otherwise.  With distinct names, a column named "__proto__"
    makes no key. *)
Theorem parse_line_columns header line index key :
  key <> "__proto__" ->
  header !! index = Some key ->
  (forall later, (index < later)%nat -> header !! later <> Some key) ->
  (exists v, parse_line ToNumber header line !! key = Some v
             /\ reads_as ToNumber (Text.split "," line !! index) v)
  /\ (forall other, other ∉ header -> parse_line ToNumber header line !! other = None)
  /\ (NoDup header -> parse_line ToNumber header line !! "__proto__" = None).
Proof.
  intros Hkey Hindex Hlast. unfold parse_line. split_and!.
  - eexists. split.
    + by apply (assign_column _ _ 0%nat _ index key).
    + apply convert_reads_as.
  - intros other Hout. by rewrite assign_other.
  - intros Hnd. by rewrite assign_proto.
Qed.

Lemma assign_blank header : forall index obj key,
  key <> "__proto__" -> key ∈ header ->
  own (assign ToNumber [""] index header obj) !! key = Some JNull.
Proof.
  induction header as [|k header IH]; intros index obj key Hkey Hin.
  - by apply elem_of_nil in Hin.
  - cbn [assign]. destruct (decide (key ∈ header)) as [Hrest|Hrest]; [by apply IH|].
    apply elem_of_cons in Hin as [->|?]; [|done].
    rewrite assign_other, set_property_named by done.
    by destruct index as [|[|index]].
Qed.

(** X18.  A blank line of the file is not skipped: read with a limit that
    covers the file, the line at position [i] gives the row at position
    [i], and in that row every header name other than "__proto__" is a
    key holding [null], nothing else is a key, and with distinct names
    "__proto__" is no key either. *)
Theorem blank_line_is_a_row first lines limit i :
  lines !! i = Some "" ->
  Z.of_nat (length lines) <= limit ->
  exists row,
    rows (readCsvWithPagination ToNumber (Content (first :: lines)) limit 0) !! i = Some row
    /\ (forall key, key <> "__proto__" -> key ∈ parse_header first -> row !! key = Some JNull)
    /\ (forall key, key ∉ parse_header first -> row !! key = None)
    /\ (NoDup (parse_header first) -> row !! "__proto__" = None).
Proof.
  intros Hi Hlimit.
  assert (Hlen : (i < length lines)%nat) by (by apply lookup_lt_Some in Hi).
  exists (parse_line ToNumber (parse_header first) "").
  cbn [readCsvWithPagination rows]. split_and!.
  - rewrite HistoryFacts.slice_window by lia.
    replace (Z.to_nat (Z.max 0 (Z.of_nat (length lines) - 0 - limit))) with 0%nat by lia.
    rewrite drop_0, take_ge by lia.
    by rewrite list_lookup_fmap, Hi.
  - intros key Hkey Hin. unfold parse_line.
    change (Text.split "," "") with [""]. by apply assign_blank.
  - intros key Hout. unfold parse_line. by rewrite assign_other.
  - intros Hnd. unfold parse_line. by rewrite assign_proto.
Qed.

(** X19.  Where there is nothing to read (no file, an empty file, a file
    the system cannot read) the reader answers an empty page with total 0
    and no [hasMore] field, and never throws; with a header line and a
    positive limit and an offset between 0 and the number of data lines, the
    page is the parsed window [total - offset - limit, total - offset) of
    the data lines, cut at 0. *)
Theorem csv_page first lines limit offset :
  (forall file, file = Missing \/ file = Unreadable \/ file = Content [] ->
     readCsvWithPagination ToNumber file limit offset
     = {| rows := []; total := 0; limit := limit; offset := offset; hasMore := None |})
  /\ (0 < limit -> 0 <= offset <= Z.of_nat (length lines) ->
      let page := readCsvWithPagination ToNumber (Content (first :: lines)) limit offset in
      let n := Z.of_nat (length lines) in
      rows page
      = parse_line ToNumber (parse_header first)
          <$> drop (Z.to_nat (Z.max 0 (n - offset - limit)))
                   (take (Z.to_nat (n - offset)) lines)
      /\ Z.of_nat (length (rows page)) = Z.min limit (n - offset)
      /\ hasMore page = Some (offset + limit <? n)).
Proof.
  split.
  - by intros file [->|[->| ->]].
  - intros Hl Ho. cbn zeta. cbn [readCsvWithPagination rows hasMore].
    rewrite HistoryFacts.slice_window by lia.
    split_and!; [done| |done].
    rewrite length_fmap, length_drop, length_take. lia.
Qed.

(** X20.  [readLastCsvRows(path, limit)] with a positive limit returns the
    last [min limit n] of the [n] data lines, parsed and in file order;
    with a limit of 0 it returns all of them. *)
Theorem readLastCsvRows_rows first lines limit :
  0 <= limit ->
  readLastCsvRows ToNumber (Content (first :: lines)) limit
  = parse_line ToNumber (parse_header first)
      <$> drop (if limit =? 0 then 0%nat else (length lines - Z.to_nat limit)%nat) lines.
Proof.
  intros Hlimit. unfold readLastCsvRows, slice, relative_index. f_equal.
  destruct (Z.eqb_spec limit 0) as [->|Hne].
  - change (- 0 <? 0) with false. cbn iota.
    replace (Z.min (- 0) (Z.of_nat (length lines))) with 0 by lia.
    change (Z.to_nat 0) with 0%nat. rewrite !drop_0. apply take_ge. lia.
  - destruct (Z.ltb_spec (- limit) 0) as [_|?]; [|lia].
    replace (Z.to_nat (Z.max (Z.of_nat (length lines) + - limit) 0))
      with (length lines - Z.to_nat limit)%nat by lia.
    apply take_ge. rewrite length_drop. lia.
Qed.

End Reader.

Lemma parse_line_columns_witness :
  let header := ["time"; "edge"; "signal"; "note"; "edge"; "last"] in
  let line := "10:00,n/a, BUY UP ,  ,0.05" in
  ("edge" <> "__proto__"
   /\ header !! 4%nat = Some "edge"
   /\ forall later, (4 < later)%nat -> header !! later <> Some "edge")
  /\ parse_line example_ToNumber header line !! "edge" = Some (JNum 0.05).
Proof.
  cbn zeta.
  assert (Hkey : "edge" <> "__proto__") by done.
  assert (Hindex : ["time"; "edge"; "signal"; "note"; "edge"; "last"] !! 4%nat
                   = Some "edge") by done.
  assert (Hlast : forall later, (4 < later)%nat ->
            ["time"; "edge"; "signal"; "note"; "edge"; "last"] !! later <> Some "edge").
  { intros later Hlater. do 5 (destruct later as [|later]; [lia|]).
    by destruct later as [|[|later]]. }
  split; [done|].
  destruct (parse_line_columns example_ToNumber _ "10:00,n/a, BUY UP ,  ,0.05"
              4%nat "edge" Hkey Hindex Hlast) as [(v & -> & Hv) _].
  vm_compute in Hv. destruct Hv as (_ & _ & _ & Hv).
  f_equal. by apply Hv.
Defined.

Example parse_line_example :
  parse_line example_ToNumber ["time"; "edge"; "signal"; "note"; "edge"; "last"]
    "10:00,n/a, BUY UP ,  ,0.05"
  = {[ "time" := JStr "10:00"; "edge" := JNum 0.05; "signal" := JStr "BUY UP";
       "note" := JStr ""; "last" := JNull ]}.
Proof. by vm_compute. Qed.

(** A column named "__proto__" shows in no row; when it is there twice
    and the first is empty, the second finds the prototype gone and makes
    an own property. *)
Example parse_line_proto :
  parse_line example_ToNumber ["a"; "__proto__"] "1,2" = {[ "a" := JNum 1 ]}
  /\ parse_line example_ToNumber ["__proto__"; "a"] ",1" = {[ "a" := JNum 1 ]}
  /\ parse_line example_ToNumber ["__proto__"; "__proto__"] ",2" = {[ "__proto__" := JNum 2 ]}
  /\ parse_line example_ToNumber ["__proto__"; "__proto__"] "1,2" = ∅.
Proof. by vm_compute. Qed.

Lemma blank_line_is_a_row_witness :
  let lines := ["1,2"; ""; "0.05,x"] in
  (lines !! 1%nat = Some "" /\ Z.of_nat (length lines) <= 100)
  /\ exists row,
       rows (readCsvWithPagination example_ToNumber (Content ("a,b" :: lines)) 100 0) !! 1%nat
       = Some row
       /\ row !! "a" = Some JNull /\ row !! "b" = Some JNull /\ row !! "c" = None.
Proof.
  cbn zeta.
  assert (Hi : ["1,2"; ""; "0.05,x"] !! 1%nat = Some "") by done.
  assert (Hlimit : Z.of_nat (length ["1,2"; ""; "0.05,x"]) <= 100) by (cbn; lia).
  split; [done|].
  destruct (blank_line_is_a_row example_ToNumber "a,b" _ 100 1%nat Hi Hlimit)
    as (row & Hrow & Hnull & Hnone & _).
  exists row. split_and!; [done| | |].
  - apply Hnull; [done|]. by vm_compute; left.
  - apply Hnull; [done|]. by vm_compute; right; left.
  - apply Hnone. vm_compute. set_solver.
Defined.

Lemma csv_page_witness :
  (0 < 1 /\ 0 <= 1 <= Z.of_nat (length ["1,2"; "3,4"; "5,6"]))
  /\ rows (readCsvWithPagination (fun _ : string => nan) (Content ["a,b"; "1,2"; "3,4"; "5,6"]) 1 1)
     = [parse_line (fun _ : string => nan) ["a"; "b"] "3,4"].
Proof.
  assert (Hl : 0 < 1) by lia.
  assert (Ho : 0 <= 1 <= Z.of_nat (length ["1,2"; "3,4"; "5,6"])) by (cbn; lia).
  split; [done|].
  destruct (csv_page (fun _ : string => nan) "a,b" ["1,2"; "3,4"; "5,6"] 1 1) as [_ Hpage].
  by rewrite (proj1 (Hpage Hl Ho)).
Defined.

Lemma readLastCsvRows_rows_witness :
  0 <= 2
  /\ readLastCsvRows (fun _ : string => nan) (Content ["a"; "1"; "2"; "3"]) 2
     = [parse_line (fun _ : string => nan) ["a"] "2"; parse_line (fun _ : string => nan) ["a"] "3"].
Proof.
  assert (H : 0 <= 2) by lia. split; [done|].
  by rewrite (readLastCsvRows_rows (fun _ : string => nan) "a" ["1"; "2"; "3"] 2 H).
Defined.

End CsvFacts.
